(** * Kolibri desktop shell: a shallow embedding of [src/main.py] and
    [tools/stdlib.py], and the properties of its readiness poller, loading
    page resolution, window list, log writer and packaging helper. *)

From Stdlib Require Import Ascii String ZArith Lia.
From stdpp Require Import gmap strings list.
From Equations Require Import Equations.


(** ** Python string primitives used by the program *)

Module PyStr.

Definition newline : ascii := "010"%char.

(** [s.startswith(p)] *)
Fixpoint startswith (s p : string) {struct p} : bool :=
  match p with
  | EmptyString => true
  | String a p' =>
      match s with
      | EmptyString => false
      | String b s' => if Ascii.eqb a b then startswith s' p' else false
      end
  end.

(** [s[:n]] for [0 <= n] *)
Fixpoint take (n : nat) (s : string) : string :=
  match n, s with
  | S n', String c s' => String c (take n' s')
  | _, _ => EmptyString
  end.

(** [s[n:]] for [0 <= n] *)
Fixpoint drop (n : nat) (s : string) : string :=
  match n, s with
  | S n', String _ s' => drop n' s'
  | _, _ => s
  end.

(** [s[a:-k]] for [0 <= a] and [0 < k]: the end index is [len(s) - k],
    clamped at [0], and a slice whose start is past its end is empty. *)
Definition slice_to_minus (a k : nat) (s : string) : string :=
  take (String.length s - k - a) (drop a s).

(** [s.endswith(p)] *)
Definition endswith (s p : string) : bool :=
  (String.length p <=? String.length s)%nat
  && String.eqb (drop (String.length s - String.length p) s) p.

(** [sub in s] *)
Fixpoint contains (s sub : string) : bool :=
  startswith s sub
  || match s with
     | EmptyString => false
     | String _ s' => contains s' sub
     end.

(** [s.find(c)] for a one-character [c]; [None] stands for [-1]. *)
Fixpoint find (c : ascii) (s : string) : option nat :=
  match s with
  | EmptyString => None
  | String b s' =>
      if Ascii.eqb b c then Some 0%nat
      else match find c s' with
           | Some n => Some (S n)
           | None => None
           end
  end.

(** [c in s] for a one-character [c] *)
Fixpoint has_char (c : ascii) (s : string) : bool :=
  match s with
  | EmptyString => false
  | String b s' => Ascii.eqb b c || has_char c s'
  end.

(** [s.replace(a, b)] for one-character [a] and [b] *)
Fixpoint replace (a b : ascii) (s : string) : string :=
  match s with
  | EmptyString => EmptyString
  | String c s' => String (if Ascii.eqb c a then b else c) (replace a b s')
  end.

(** [s.split(c)[0]]: the text before the first [c], all of [s] without one *)
Fixpoint split_head (c : ascii) (s : string) : string :=
  match s with
  | EmptyString => EmptyString
  | String b s' => if Ascii.eqb b c then EmptyString else String b (split_head c s')
  end.

(** Number of occurrences of the character [c] *)
Fixpoint count (c : ascii) (s : string) : nat :=
  match s with
  | EmptyString => 0
  | String b s' => (if Ascii.eqb b c then 1 else 0) + count c s'
  end.

(** [''.join(l)] *)
Fixpoint join (l : list string) : string :=
  match l with
  | [] => EmptyString
  | s :: l' => s +:+ join l'
  end.

(** [s.replace(c, '')] for a one-character [c] *)
Fixpoint remove (c : ascii) (s : string) : string :=
  match s with
  | EmptyString => EmptyString
  | String b s' => if Ascii.eqb b c then remove c s' else String b (remove c s')
  end.

(** [s.split(c)] for a one-character [c]: never empty, [''.split(c)] is
    [['']]. *)
Fixpoint split (c : ascii) (s : string) : list string :=
  match s with
  | EmptyString => [EmptyString]
  | String b s' =>
      if Ascii.eqb b c then EmptyString :: split c s'
      else match split c s' with
           | piece :: rest => String b piece :: rest
           | [] => [String b EmptyString]
           end
  end.

End PyStr.

(** ** [os.path] on a POSIX system *)

Module OsPath.

Definition sep : ascii := "/"%char.

(** [os.path.join(a, b)] *)
Definition join (a b : string) : string :=
  if PyStr.startswith b "/" then b
  else if String.eqb a "" || PyStr.endswith a "/" then a +:+ b
  else a +:+ "/" +:+ b.

End OsPath.

(** ** Effects the program performs on its environment, in program order *)

Inductive level := DEBUG | INFO | WARNING.

Inductive effect :=
| Log (lvl : level) (msg : string)
| Urlopen (url : string)
| CurlHead (url : string)
| Sleep (seconds : nat)
| EvaluateJavascript (js : string)
| GetViewState
| LoadUrl (url : string)
| ClearHistory
| WebbrowserOpen (url : string)
| SuperShutdown
| ShowWindow (window : nat)
| WriteFile (path content : string).

Definition trace := list effect.

(** ** [class LoggerWriter] *)

Module LoggerWriter.

(** The object's state is [_msg]; the calls made to [_writer] are returned
    in call order next to the new state. *)

(** The [while '\n' in self._msg] loop of [write]: each round hands the
    text before the first newline to the writer and keeps what follows
    it. The buffer gets shorter every round. *)
Equations? drain (msg : string) : list string * string
  by wf (String.length msg) lt :=
  drain msg with Equations.Prop.Logic.inspect (PyStr.find PyStr.newline msg) := {
    | exist _ (Some pos) Hfind =>
        let r := drain (PyStr.drop (pos + 1) msg) in
        (PyStr.take pos msg :: fst r, snd r)
    | exist _ None _ => ([], msg) }.
Proof.
  clear drain. revert pos Hfind.
  induction msg as [|b msg IH]; intros pos; simpl; [discriminate|].
  destruct (Ascii.eqb b PyStr.newline).
  - intros [= <-]. simpl. destruct msg; simpl; lia.
  - destruct (PyStr.find PyStr.newline msg) as [n|]; [|discriminate].
    intros [= <-]. specialize (IH n eq_refl). simpl. lia.
Qed.

Definition write (_msg message : string) : list string * string :=
  drain (_msg +:+ message).

Definition flush (_msg : string) : list string * string :=
  if negb (String.eqb _msg "") then ([_msg], "") else ([], "").

(** A sequence of [write] calls on one object. *)
Fixpoint writes (_msg : string) (messages : list string) : list string * string :=
  match messages with
  | [] => ([], _msg)
  | m :: ms =>
      let '(calls, _msg') := write _msg m in
      let '(calls', _msg'') := writes _msg' ms in
      (calls ++ calls', _msg'')
  end.

End LoggerWriter.

(** ** Module-level constants and Python exceptions *)

Definition KOLIBRI_ROOT_URL : string := "http://localhost:5000".

Inductive exn :=
| KeyError (key : string)
| ValueError (msg : string)
| OSError (msg : string).

(** A computation that either raises or returns. *)
Definition result (A : Type) : Type := exn + A.

(** ** [gettext.translation], as the standard library documents it *)

Module Gettext.

(** A message catalog found on disk for the requested languages: it either
    parses, giving the metadata of its header, or it does not. *)
Inductive mofile :=
| Catalog (metadata : gmap string string)
| Unreadable (err : string).

Inductive translations :=
| NullTranslations
| GNUTranslations (metadata : gmap string string).

(** [t.info()] *)
Definition info (t : translations) : gmap string string :=
  match t with
  | NullTranslations => ∅
  | GNUTranslations metadata => metadata
  end.

(** Every catalog found is parsed; [None] when all parse. *)
Fixpoint first_unreadable (found : list mofile) : option string :=
  match found with
  | [] => None
  | Catalog _ :: rest => first_unreadable rest
  | Unreadable err :: _ => Some err
  end.

(** [gettext.translation(domain, localedir, languages, fallback)] where
    [found] are the catalogs [gettext.find] locates: without any, the
    call raises unless [fallback] is set, in which case it returns a
    [NullTranslations]; otherwise the first catalog answers [info()]. *)
Definition translation (found : list mofile) (fallback : bool) : result translations :=
  match found with
  | [] =>
      if fallback then inr NullTranslations
      else inl (OSError "No translation file found for domain")
  | first :: _ =>
      match first_unreadable found, first with
      | Some err, _ => inl (OSError err)
      | None, Catalog metadata => inr (GNUTranslations metadata)
      | None, Unreadable err => inl (OSError err)
      end
  end.

End Gettext.

(** The [try: ... except Exception] block that sets [locale_info]. *)
Definition locale_info (found : list Gettext.mofile) : gmap string string * trace :=
  match Gettext.translation found true with
  | inr t => (Gettext.info t, [Log INFO "Locale info"])
  | inl _ =>
      (<["language" := "en_US"]> ∅,
       [Log WARNING "Error retrieving language"; Log INFO "Locale info"])
  end.

(** ** The application object *)

(** A window is known by its identity; [next_window] is the identity the
    next [KolibriView(...)] gets. *)
Record app := {
  loader_url : string;
  kolibri_loaded : bool;
  view : nat;
  windows : list nat;
  next_window : nat
}.

(** [list.remove(x)]: drops the first occurrence, [ValueError] without one. *)
Fixpoint list_remove (x : nat) (l : list nat) : result (list nat) :=
  match l with
  | [] => inl (ValueError "list.remove(x): x not in list")
  | y :: l' =>
      if Nat.eqb y x then inr l'
      else match list_remove x l' with
           | inl e => inl e
           | inr r => inr (y :: r)
           end
  end.

Module MenuEventHandler.

(** [pew.ui.get_app()] answers [Some] application or nothing. *)
Definition on_new_window (get_app : option app) : option app * trace :=
  match get_app with
  | Some a =>
      let window := next_window a in
      (Some {| loader_url := loader_url a;
               kolibri_loaded := kolibri_loaded a;
               view := view a;
               windows := windows a ++ [window];
               next_window := S (next_window a) |},
       [ShowWindow window])
  | None => (None, [])
  end.

End MenuEventHandler.

Module KolibriView.

Definition shutdown (self : nat) (get_app : option app) : result (option app * trace) :=
  match get_app with
  | Some a =>
      match list_remove self (windows a) with
      | inl e => inl e
      | inr remaining =>
          let a' := {| loader_url := loader_url a;
                       kolibri_loaded := kolibri_loaded a;
                       view := view a;
                       windows := remaining;
                       next_window := next_window a |} in
          if (0 <? length remaining)%nat then inr (Some a', [])
          else inr (Some a', [SuperShutdown])
      end
  | None => inr (None, [SuperShutdown])
  end.

End KolibriView.

(** What the readiness check sees at one attempt: [urlopen] returns, or it
    raises [URLError] and [curl -I] exits with a status. *)
Inductive probe :=
| Opened
| URLError (reason : string) (curl_status : Z).

Record counters := { time_spent : nat; load_retries : nat }.

Inductive control :=
| Continue (c : counters)
| Return_.

Inductive loop_exit := ServerRunning | GaveUp.

Module Application.

Section SetUp.

(** The file system as [setUp] sees it. *)
Variable abspath : string -> string.
Variable path_exists : string -> bool.

(** [os.path.abspath(os.path.join('assets', '_load-{}.html'.format(lang_id)))] *)
Definition loader_asset (lang_id : string) : string :=
  abspath (OsPath.join "assets" ("_load-" +:+ lang_id +:+ ".html")).

(** The loading screen part of [setUp], from the language tag on. *)
Definition resolve_loader_page (lang_id : string) : string :=
  let loader_page := loader_asset lang_id in
  let loader_page :=
    if negb (path_exists loader_page) then
      let lang_id := PyStr.split_head "-" lang_id in
      loader_asset lang_id
    else loader_page in
  let loader_page :=
    if negb (path_exists loader_page) then loader_asset "en_US"
    else loader_page in
  loader_page.

(** [setUp], up to showing the first window. Starting the server and
    poller threads has no part in the state kept here. *)
Definition setUp (locale : gmap string string) : result (app * trace) :=
  match locale !! "language" with
  | None => inl (KeyError "language")
  | Some lang_id =>
      let loader_url := "file://" +:+ resolve_loader_page lang_id in
      inr ({| loader_url := loader_url;
              kolibri_loaded := false;
              view := 0;
              windows := [0];
              next_window := 1 |},
           [ShowWindow 0])
  end.

End SetUp.

Definition should_load_url (url : string) : bool * trace :=
  if PyStr.startswith url "http" && negb (PyStr.startswith url KOLIBRI_ROOT_URL)
  then (false, [WebbrowserOpen url])
  else (true, []).

Definition page_loaded (self : app) (url : string) : app * trace :=
  if negb (kolibri_loaded self) && negb (String.eqb url (loader_url self))
  then ({| loader_url := loader_url self;
           kolibri_loaded := true;
           view := view self;
           windows := windows self;
           next_window := next_window self |},
        [ClearHistory])
  else (self, []).

(** The delegate called once per finished page load. *)
Fixpoint pages_loaded (self : app) (urls : list string) : app * trace :=
  match urls with
  | [] => (self, [])
  | url :: rest =>
      let '(self', t) := page_loaded self url in
      let '(self'', t') := pages_loaded self' rest in
      (self'', t ++ t')
  end.

Section WaitForServer.

Variable home_url : string.
Variable timeout max_retries : nat.

(** The nested [running()]. *)
Definition running (p : probe) : bool * trace :=
  match p with
  | Opened => (true, [Urlopen home_url])
  | URLError reason curl_status =>
      ((curl_status =? 0)%Z,
       [Urlopen home_url;
        Log INFO ("Error pinging Kolibri server: " +:+ reason);
        CurlHead home_url])
  end.

(** One round of the [while not running()] body. *)
Definition loop_body (c : counters) : control * trace :=
  let waited :=
    [Log INFO "Kolibri server not yet started, checking again in one second...";
     Sleep 1] in
  let time_spent := (time_spent c + 1)%nat in
  if (timeout <? time_spent)%nat then
    if (load_retries c <? max_retries)%nat then
      (Continue {| time_spent := 0; load_retries := (load_retries c + 1)%nat |},
       waited ++ [Log WARNING "Kolibri server not starting, retrying...";
                  EvaluateJavascript "show_retry()"])
    else (Return_, waited ++ [EvaluateJavascript "show_error()"])
  else (Continue {| time_spent := time_spent; load_retries := load_retries c |},
        waited).

(** The loop: [server n] is what the [n]-th check meets. [None] when
    the rounds allowed run out before the loop is left. *)
Fixpoint wait_loop (fuel : nat) (server : nat -> probe) (attempt : nat)
    (c : counters) : option (loop_exit * trace) :=
  match fuel with
  | O => None
  | S fuel' =>
      let '(up, t) := running (server attempt) in
      if up then Some (ServerRunning, t)
      else
        match loop_body c with
        | (Return_, t') => Some (GaveUp, t ++ t')
        | (Continue c', t') =>
            match wait_loop fuel' server (S attempt) c' with
            | Some (how, rest) => Some (how, t ++ t' ++ rest)
            | None => None
            end
        end
  end.

(** What follows the loop when the server runs. *)
Definition navigate (saved_state : gmap string string) : trace :=
  [GetViewState; GetViewState; Log DEBUG "Persisted View State"]
  ++ match saved_state !! "URL" with
     | Some url =>
         if PyStr.startswith url home_url then [LoadUrl url]
         else [LoadUrl home_url]
     | None => [LoadUrl home_url]
     end.

Definition wait_for_server_with (fuel : nat) (server : nat -> probe)
    (saved_state : gmap string string) : option (loop_exit * trace) :=
  match wait_loop fuel server 0 {| time_spent := 0; load_retries := 0 |} with
  | Some (GaveUp, t) => Some (GaveUp, t)
  | Some (ServerRunning, t) => Some (ServerRunning, t ++ navigate saved_state)
  | None => None
  end.

End WaitForServer.

(** [wait_for_server] with its local constants. *)
Definition wait_for_server :=
  wait_for_server_with KOLIBRI_ROOT_URL 20 3.

End Application.

(** ** [tools/stdlib.py] *)

Module StdlibTool.

Definition excludes : list string :=
  ["site-packages"; "test"; "encodings"; "python-config"; "__phello__";
   "__init__.py"; "this"; "distutils"; "antigravity"; "tkinter"; "idlelib";
   "venv.__init__"].

Definition nl : string := String PyStr.newline "".

(** The triple-quoted template with [module_path] filled in. *)
Definition import_statement (module_path : string) : string :=
  nl +:+ "try:" +:+ nl +:+ "    import " +:+ module_path +:+ nl
     +:+ "except:" +:+ nl +:+ "    pass" +:+ nl +:+ "    ".

(** [os.path.join(top, nm)[len(std_lib)+1:-3].replace(os.sep, '.')] *)
Definition module_path (std_lib top nm : string) : string :=
  PyStr.replace OsPath.sep "."
    (PyStr.slice_to_minus (String.length std_lib + 1) 3 (OsPath.join top nm)).

(** The [for ex in excludes] loop that sets [exclude]. *)
Definition excluded (module_path : string) : bool :=
  fold_left (fun exclude ex => if PyStr.contains module_path ex then true else exclude)
            excludes false.

(** The body of [for nm in files]. *)
Definition visit_file (std_lib top : string) (script nm : string) : string :=
  let module_path := module_path std_lib top nm in
  let exclude := excluded module_path in
  if PyStr.endswith nm ".py" && negb exclude
  then script +:+ import_statement module_path
  else script.

(** An entry of [os.walk]: [(top, dirs, files)]. *)
Definition walk_entry : Type := string * list string * list string.

Definition build_script (std_lib : string) (walk : list walk_entry) : string :=
  fold_left
    (fun script '(top, _, files) => fold_left (visit_file std_lib top) files script)
    walk "".

Definition generate_stdlib_imports (tools_dir std_lib : string)
    (walk : list walk_entry) : trace :=
  [WriteFile
     (OsPath.join (OsPath.join (OsPath.join tools_dir "..") "src") "stdlib_imports.py")
     (build_script std_lib walk)].

End StdlibTool.

(** ** Module-level start-up code *)

(** The environment block: [DJANGO_SETTINGS_MODULE] is set; on Android
    [KOLIBRI_HOME] and [TZ] are set from the platform, elsewhere
    [KOLIBRI_HOME] is set only when it is not in [os.environ] yet. *)
Definition prepare_environ (pew_platform home_folder timezone user_home : string)
    (environ : gmap string string) : gmap string string :=
  let environ :=
    <["DJANGO_SETTINGS_MODULE" := "kolibri.deployment.default.settings.base"]> environ in
  if String.eqb pew_platform "android" then
    <["TZ" := timezone]> (<["KOLIBRI_HOME" := home_folder]> environ)
  else
    match environ !! "KOLIBRI_HOME" with
    | None => <["KOLIBRI_HOME" := OsPath.join user_home ".kolibri"]> environ
    | Some _ => environ
    end.

(** [os.path.join(os.path.join(os.environ['KOLIBRI_HOME'], 'logs'), log_basename)] *)
Definition log_filename (environ : gmap string string) : result string :=
  match environ !! "KOLIBRI_HOME" with
  | Some home => inr (OsPath.join (OsPath.join home "logs") "kolibri-app.txt")
  | None => inl (KeyError "KOLIBRI_HOME")
  end.

Definition double_quote : ascii := "034"%char.

(** [langs_str[1:-1].decode('utf-8')], with the double quotes taken out
    by the first [replace], every hyphen turned into an underscore by the
    second, and the result cut at the commas by [split(',')]. *)
Definition languages_base (langs_str : string) : list string :=
  PyStr.split ","
    (PyStr.replace "-" "_"
       (PyStr.remove double_quote (PyStr.slice_to_minus 1 1 langs_str))).

(** The [for lang in languages_base] loop on macOS: a preference with a
    locale directory is kept, another one with an underscore gives its base
    language, the rest are dropped. *)
Definition detect_languages (locale_root_dir : string) (path_exists : string -> bool)
    (langs_str : string) : list string :=
  fold_left
    (fun languages lang =>
       if path_exists (OsPath.join locale_root_dir lang) then languages ++ [lang]
       else if PyStr.contains lang "_" then languages ++ [PyStr.split_head "_" lang]
       else languages)
    (languages_base langs_str) [].

(** [languages] as the module leaves it: [None] off macOS. *)
Definition languages (sys_platform locale_root_dir : string)
    (path_exists : string -> bool) (langs_str : string) : option (list string) :=
  if String.eqb sys_platform "darwin"
  then Some (detect_languages locale_root_dir path_exists langs_str)
  else None.

(** ** Vocabulary of the statements *)

(** The writer calls made, each with its newline put back, followed by the
    buffer. *)
Definition replay (calls : list string) (buffer : string) : string :=
  PyStr.join (map (fun line => line +:+ StdlibTool.nl) calls) +:+ buffer.

Definition no_newline (s : string) : Prop := PyStr.has_char PyStr.newline s = false.

(** What the server and the view see of a trace: requests, waits, injected
    scripts, reads of the view state and navigations. Log lines and the
    [curl] diagnostic are left out. *)
Definition ui_visible (e : effect) : bool :=
  match e with
  | Urlopen _ | Sleep _ | EvaluateJavascript _ | GetViewState | LoadUrl _ => true
  | _ => false
  end.

Definition observe (t : trace) : trace := List.filter ui_visible t.

(** The scripts injected into the loading page, in order. *)
Definition signals (t : trace) : list string :=
  flat_map (fun e => match e with EvaluateJavascript js => [js] | _ => [] end) t.

(** The navigations issued, in order. *)
Definition loads (t : trace) : list string :=
  flat_map (fun e => match e with LoadUrl url => [url] | _ => [] end) t.

Definition requests (t : trace) : nat :=
  length (List.filter (fun e => match e with Urlopen _ => true | _ => false end) t).

Definition view_state_reads (t : trace) : nat :=
  length (List.filter (fun e => match e with GetViewState => true | _ => false end) t).

Definition history_clears (t : trace) : nat :=
  length (List.filter (fun e => match e with ClearHistory => true | _ => false end) t).

(** One unanswered check and the wait after it, as the server and the view
    see them. *)
Definition round : trace := [Urlopen KOLIBRI_ROOT_URL; Sleep 1].

(** The checks of one timeout period. *)
Definition period : trace := concat (replicate 21 round).

(** The whole run against a server that never answers. *)
Definition unanswered : trace :=
  concat (replicate 3 (period ++ [EvaluateJavascript "show_retry()"]))
  ++ period ++ [EvaluateJavascript "show_error()"].

(** Where the view goes once the server runs. *)
Definition landing (saved_state : gmap string string) : string :=
  match saved_state !! "URL" with
  | Some url => if PyStr.startswith url KOLIBRI_ROOT_URL then url else KOLIBRI_ROOT_URL
  | None => KOLIBRI_ROOT_URL
  end.

(** The origin of a URL, scheme, host and port: the text up to the first
    slash after the [//] of the scheme. *)
Fixpoint url_origin (url : string) : string :=
  match url with
  | String ":" (String "/" (String "/" rest)) => "://" +:+ PyStr.split_head "/" rest
  | String c rest => String c (url_origin rest)
  | EmptyString => EmptyString
  end.

(** A server that never answers, and one that answers the [k]-th check
    first. *)
Definition silent : nat -> probe := fun _ => URLError "" 1.

Definition answers_at (k : nat) : nat -> probe :=
  fun n => if (n <? k)%nat then URLError "" 1 else Opened.

(** The exit of the loop with what the server and the view saw of it. *)
Definition observed (r : option (loop_exit * trace)) : option (loop_exit * trace) :=
  match r with
  | Some (how, t) => Some (how, observe t)
  | None => None
  end.

(** What the server and the view see when the [k]-th check is the first
    one answered: the full periods before it, each closed by a retry
    signal, the unanswered checks of the running period, and the answered
    check. *)
Definition answered_after (k : nat) : trace :=
  concat (replicate (k / 21) (period ++ [EvaluateJavascript "show_retry()"]))
  ++ concat (replicate (k mod 21) round)
  ++ [Urlopen KOLIBRI_ROOT_URL].

Global Instance level_eq_dec : EqDecision level.
Proof. solve_decision. Defined.

Global Instance effect_eq_dec : EqDecision effect.
Proof. solve_decision. Defined.

Global Instance loop_exit_eq_dec : EqDecision loop_exit.
Proof. solve_decision. Defined.

Definition start : counters := {| time_spent := 0; load_retries := 0 |}.

(** The loop of [wait_for_server] against [answers_at k], checked by
    running it. *)
Definition answered_check (k : nat) : bool :=
  bool_decide
    (observed (Application.wait_loop KOLIBRI_ROOT_URL 20 3 (S k) (answers_at k) 0 start)
     = Some (ServerRunning, answered_after k))
  && bool_decide (signals (answered_after k) = replicate (k / 21) "show_retry()")
  && bool_decide (requests (answered_after k) = S k).

(** Window events of the toolkit, and the application's reaction. *)
Inductive window_event :=
| NewWindow
| CloseWindow (window : nat).

Global Instance window_event_eq_dec : EqDecision window_event.
Proof. solve_decision. Defined.

(** [pew.ui.get_app()] answers the application while it lives. *)
Definition react (a : app) (e : window_event) : result (app * trace) :=
  match e with
  | NewWindow =>
      match MenuEventHandler.on_new_window (Some a) with
      | (Some a', t) => inr (a', t)
      | (None, t) => inr (a, t)
      end
  | CloseWindow w =>
      match KolibriView.shutdown w (Some a) with
      | inl err => inl err
      | inr (Some a', t) => inr (a', t)
      | inr (None, t) => inr (a, t)
      end
  end.

Fixpoint run (a : app) (events : list window_event) : result (app * trace) :=
  match events with
  | [] => inr (a, [])
  | e :: rest =>
      match react a e with
      | inl err => inl err
      | inr (a', t) =>
          match run a' rest with
          | inl err => inl err
          | inr (a'', t') => inr (a'', t ++ t')
          end
      end
  end.

(** What the window list holds after a history of window events: the
    windows created so far are those below [next_window], and the list has
    the ones of them no event closed. *)
Definition tracks (a : app) (history : list window_event) : Prop :=
  NoDup (windows a)
  /\ (forall w, w ∈ windows a <-> w < next_window a /\ CloseWindow w ∉ history)
  /\ (forall w, CloseWindow w ∈ history -> w < next_window a)
  /\ next_window a = S (length (filter (fun e => e = NewWindow) history)).

(** The packaging helper, told declaratively: the files of the walk in
    visiting order, the test a file must pass, and the statements of those
    that pass. *)
Definition walked_files (walk : list StdlibTool.walk_entry) : list (string * string) :=
  flat_map (fun '(top, _, files) => map (pair top) files) walk.

Definition kept (std_lib : string) (file : string * string) : bool :=
  PyStr.endswith file.2 ".py"
  && negb (existsb (PyStr.contains (StdlibTool.module_path std_lib file.1 file.2))
                   StdlibTool.excludes).

Definition statements (std_lib : string) (walk : list StdlibTool.walk_entry) : list string :=
  map (fun file => StdlibTool.import_statement
                     (StdlibTool.module_path std_lib file.1 file.2))
      (List.filter (kept std_lib) (walked_files walk)).

(** A file system with the loading pages of the given languages under
    [/app/assets]. *)
Definition app_abspath (p : string) : string := "/app/" +:+ p.

Definition assets_for (languages : list string) (path : string) : bool :=
  existsb (fun lang => String.eqb path ("/app/assets/_load-" +:+ lang +:+ ".html"))
          languages.

(** The windows a history of events closes and the number it opens. *)
Definition closed_windows (events : list window_event) : list nat :=
  flat_map (fun e => match e with CloseWindow w => [w] | NewWindow => [] end) events.

Definition opened_count (events : list window_event) : nat :=
  length (List.filter (fun e => match e with NewWindow => true | _ => false end) events).

Definition shutdowns (t : trace) : nat :=
  length (List.filter (fun e => match e with SuperShutdown => true | _ => false end) t).

(** Whether a load of [url] is the one that clears the history. *)
Definition leaves_loader (self : app) (url : string) : bool :=
  negb (String.eqb url (loader_url self)).

(** What [detect_languages] makes of one preference. *)
Definition language_for (locale_root_dir : string) (path_exists : string -> bool)
    (lang : string) : option string :=
  if path_exists (OsPath.join locale_root_dir lang) then Some lang
  else if PyStr.has_char "_" lang then Some (PyStr.split_head "_" lang)
  else None.

(** The log line and the wait of one round of the loop body. *)
Definition waited : trace :=
  [Log INFO "Kolibri server not yet started, checking again in one second...";
   Sleep 1].

(** The unanswered checks left before the loop gives up. *)
Definition rounds_left (timeout max_retries : nat) (c : counters) : nat :=
  (max_retries - load_retries c) * S timeout + (S timeout - time_spent c).

(** * Properties *)

(** ** Facts about the string primitives *)

Section StringFacts.

Implicit Types (s t : string) (c : ascii).

Lemma append_cons c s t : String c s +:+ t = String c (s +:+ t).
Proof. reflexivity. Qed.

Lemma append_empty_l t : "" +:+ t = t.
Proof. reflexivity. Qed.

Lemma append_empty_r s : s +:+ "" = s.
Proof. induction s as [|c s IH]; [done|]. by rewrite append_cons, IH. Qed.

Lemma append_assoc s t u : (s +:+ t) +:+ u = s +:+ (t +:+ u).
Proof. induction s as [|c s IH]; [done|]. by rewrite !append_cons, IH. Qed.

Lemma count_append c s t :
  PyStr.count c (s +:+ t) = (PyStr.count c s + PyStr.count c t)%nat.
Proof.
  induction s as [|b s IH]; [done|].
  rewrite append_cons. simpl. rewrite IH. lia.
Qed.

Lemma count_without c s : PyStr.has_char c s = false -> PyStr.count c s = 0%nat.
Proof.
  induction s as [|b s IH]; [done|]. simpl.
  destruct (Ascii.eqb b c); [done|]. simpl. exact IH.
Qed.

Lemma find_None c s : PyStr.find c s = None -> PyStr.has_char c s = false.
Proof.
  induction s as [|b s IH]; [done|]. simpl.
  destruct (Ascii.eqb b c); [done|].
  destruct (PyStr.find c s); [done|]. intros _. by apply IH.
Qed.

(** [find] cuts the string at its first [c]. *)
Lemma find_Some c s pos :
  PyStr.find c s = Some pos ->
  s = PyStr.take pos s +:+ String c (PyStr.drop (pos + 1) s)
  /\ PyStr.has_char c (PyStr.take pos s) = false.
Proof.
  revert pos. induction s as [|b s IH]; intros pos; [done|]. simpl.
  destruct (Ascii.eqb b c) eqn:Hb.
  - intros [= <-]. apply Ascii.eqb_eq in Hb as ->.
    split; [by destruct s | reflexivity].
  - destruct (PyStr.find c s) as [n|]; [|done]. intros [= <-].
    destruct (IH n eq_refl) as [Hs Hno]. simpl.
    rewrite append_cons, Hb. split; [by rewrite <- Hs | exact Hno].
Qed.

Lemma startswith_refl s : PyStr.startswith s s = true.
Proof. induction s as [|c s IH]; [done|]. simpl. by rewrite Ascii.eqb_refl. Qed.

Lemma startswith_append s t : PyStr.startswith (s +:+ t) s = true.
Proof.
  induction s as [|c s IH]; [done|].
  rewrite append_cons. simpl. by rewrite Ascii.eqb_refl.
Qed.

End StringFacts.

(** ** The log writer *)

Section LoggerWriterFacts.

Lemma drain_splits_lines msg :
  replay (LoggerWriter.drain msg).1 (LoggerWriter.drain msg).2 = msg
  /\ Forall no_newline (LoggerWriter.drain msg).1
  /\ no_newline (LoggerWriter.drain msg).2
  /\ length (LoggerWriter.drain msg).1 = PyStr.count PyStr.newline msg.
Proof.
  apply (LoggerWriter.drain_elim
           (fun msg r => replay r.1 r.2 = msg /\ Forall no_newline r.1
                         /\ no_newline r.2
                         /\ length r.1 = PyStr.count PyStr.newline msg)).
  - intros m pos Hfind (Hrep & Hcalls & Hbuf & Hlen) _. simpl.
    destruct (find_Some _ _ _ Hfind) as [Hm Hno].
    split; [|split; [|split]].
    + unfold replay in *. simpl. rewrite !append_assoc, Hrep.
      unfold StdlibTool.nl. by rewrite append_cons, append_empty_l, <- Hm.
    + by constructor.
    + exact Hbuf.
    + rewrite Hlen. rewrite Hm at 2. rewrite count_append. simpl.
      rewrite (count_without _ _ Hno). lia.
  - intros m Hnone _. simpl. apply find_None in Hnone.
    split; [done|]. split; [constructor|]. split; [exact Hnone|].
    by rewrite count_without.
Qed.

(** Writes from a buffer without newline: the calls and the new buffer
    replay the old buffer followed by everything written. *)
Lemma writes_split_lines ms : forall buffer,
  no_newline buffer ->
  replay (LoggerWriter.writes buffer ms).1 (LoggerWriter.writes buffer ms).2
    = buffer +:+ PyStr.join ms
  /\ Forall no_newline (LoggerWriter.writes buffer ms).1
  /\ no_newline (LoggerWriter.writes buffer ms).2
  /\ length (LoggerWriter.writes buffer ms).1
     = PyStr.count PyStr.newline (PyStr.join ms).
Proof.
  induction ms as [|m ms IH]; intros buffer Hbuf.
  - simpl. unfold replay. simpl. by rewrite append_empty_r.
  - simpl. unfold LoggerWriter.write.
    destruct (drain_splits_lines (buffer +:+ m)) as (Hrep & Hcalls & Hrest & Hlen).
    destruct (LoggerWriter.drain (buffer +:+ m)) as [calls rest]. simpl in *.
    destruct (IH rest Hrest) as (Hrep' & Hcalls' & Hrest' & Hlen').
    destruct (LoggerWriter.writes rest ms) as [calls' rest']. simpl in *.
    split; [|split; [|split]].
    + unfold replay in *. rewrite map_app.
      assert (Hjoin : forall a b, PyStr.join (a ++ b) = PyStr.join a +:+ PyStr.join b).
      { intros a b. induction a as [|x a IHa]; [done|].
        simpl. by rewrite IHa, append_assoc. }
      rewrite Hjoin, append_assoc, Hrep', <- append_assoc, Hrep.
      by rewrite append_assoc.
    + by apply Forall_app.
    + exact Hrest'.
    + rewrite length_app, Hlen, Hlen', !count_append.
      unfold no_newline in Hbuf. rewrite (count_without _ _ Hbuf). lia.
Qed.

(** C9: from the empty buffer [__init__] sets, any sequence of [write]
    calls invokes the writer once per newline of the concatenated input,
    in order and with the newline taken off each segment (putting the
    newlines back and appending the buffer gives the input again, and no
    call holds a newline), the buffer is the newline-free text after the
    last newline, and [flush] calls the writer once with the buffer only
    when it is non-empty and always leaves it empty. *)
Theorem logger_writer_line_buffering (messages : list string) (buffer : string) :
  replay (LoggerWriter.writes "" messages).1 (LoggerWriter.writes "" messages).2
    = PyStr.join messages
  /\ Forall no_newline (LoggerWriter.writes "" messages).1
  /\ no_newline (LoggerWriter.writes "" messages).2
  /\ length (LoggerWriter.writes "" messages).1
     = PyStr.count PyStr.newline (PyStr.join messages)
  /\ LoggerWriter.flush buffer
     = (if decide (buffer = "") then [] else [buffer], "").
Proof.
  destruct (writes_split_lines messages "" eq_refl) as (Hrep & Hcalls & Hbuf & Hlen).
  repeat split; try assumption.
  unfold LoggerWriter.flush. destruct (String.eqb_spec buffer "") as [->|Hne].
  - reflexivity.
  - simpl. by destruct (decide (buffer = "")).
Qed.

End LoggerWriterFacts.

(** ** Which URLs the view may load *)

Section ShouldLoadUrl.

Lemma should_load_url_under_root (rest : string) :
  Application.should_load_url (KOLIBRI_ROOT_URL +:+ rest) = (true, []).
Proof.
  unfold Application.should_load_url.
  rewrite (startswith_append KOLIBRI_ROOT_URL rest). by rewrite andb_false_r.
Qed.

(** C8: [should_load_url] answers [False] exactly for the URLs that start
    with [http] and not with the Kolibri root URL, and those are the ones
    handed to the external browser; every other URL is loaded without a
    browser call, among them every [file://] URL and every URL that
    extends the root URL. *)
Theorem should_load_url_keeps_kolibri_pages (url rest : string) :
  (Application.should_load_url url).1
    = negb (PyStr.startswith url "http"
            && negb (PyStr.startswith url KOLIBRI_ROOT_URL))
  /\ (Application.should_load_url url).2
     = (if (Application.should_load_url url).1 then [] else [WebbrowserOpen url])
  /\ Application.should_load_url ("file://" +:+ rest) = (true, [])
  /\ Application.should_load_url (KOLIBRI_ROOT_URL +:+ rest) = (true, []).
Proof.
  split; [|split; [|split]].
  - unfold Application.should_load_url.
    by destruct (PyStr.startswith url "http" && _).
  - unfold Application.should_load_url.
    by destruct (PyStr.startswith url "http" && _).
  - reflexivity.
  - apply should_load_url_under_root.
Qed.

End ShouldLoadUrl.

(** ** Clearing the history once the application page is in *)

Section PageLoaded.

Lemma history_clears_app t t' :
  history_clears (t ++ t') = (history_clears t + history_clears t')%nat.
Proof. unfold history_clears. by rewrite List.filter_app, length_app. Qed.

(** Once the flag is set nothing changes any more. *)
Lemma pages_loaded_after (self : app) (urls : list string) :
  kolibri_loaded self = true -> Application.pages_loaded self urls = (self, []).
Proof.
  intros Hloaded. induction urls as [|url urls IH]; [done|].
  simpl. unfold Application.page_loaded. rewrite Hloaded. simpl. by rewrite IH.
Qed.

(** Loads of the loader page leave the flag and the history alone. *)
Lemma pages_loaded_loader (self : app) (urls : list string) :
  Forall (fun url => url = loader_url self) urls ->
  Application.pages_loaded self urls = (self, []).
Proof.
  induction 1 as [|url urls -> _ IH]; [done|].
  simpl. unfold Application.page_loaded.
  rewrite String.eqb_refl, andb_false_r. by rewrite IH.
Qed.

Lemma pages_loaded_app (self : app) (urls urls' : list string) :
  Application.pages_loaded self (urls ++ urls')
  = let r := Application.pages_loaded self urls in
    let r' := Application.pages_loaded r.1 urls' in
    (r'.1, r.2 ++ r'.2).
Proof.
  revert self. induction urls as [|url urls IH]; intros self; simpl.
  - by destruct (Application.pages_loaded self urls').
  - destruct (Application.page_loaded self url) as [self' t]. rewrite IH.
    destruct (Application.pages_loaded self' urls) as [self'' t']. simpl.
    destruct (Application.pages_loaded self'' urls') as [self3 t3]. simpl.
    by rewrite app_assoc.
Qed.

(** C10: from the state [setUp] leaves ([kolibri_loaded] unset), the loads
    of the loader URL before the first other URL clear nothing, the first
    load of another URL sets [kolibri_loaded] and clears the history, and
    whatever is loaded afterwards leaves the flag set and clears nothing:
    the history is cleared once in the whole run. *)
Theorem page_loaded_clears_history_once
    (self : app) (before : list string) (url : string) (after : list string) :
  kolibri_loaded self = false ->
  Forall (fun u => u = loader_url self) before ->
  url <> loader_url self ->
  Application.pages_loaded self before = (self, [])
  /\ kolibri_loaded (Application.page_loaded self url).1 = true
  /\ (Application.page_loaded self url).2 = [ClearHistory]
  /\ Application.pages_loaded (Application.page_loaded self url).1 after
     = ((Application.page_loaded self url).1, [])
  /\ kolibri_loaded (Application.pages_loaded self (before ++ url :: after)).1 = true
  /\ (Application.pages_loaded self (before ++ url :: after)).2 = [ClearHistory]
  /\ history_clears (Application.pages_loaded self (before ++ url :: after)).2 = 1%nat.
Proof.
  intros Hflag Hbefore Hurl.
  pose proof (pages_loaded_loader self before Hbefore) as Hpre.
  assert (Hstep : Application.page_loaded self url
                  = ({| loader_url := loader_url self; kolibri_loaded := true;
                        view := view self; windows := windows self;
                        next_window := next_window self |}, [ClearHistory])).
  { unfold Application.page_loaded. rewrite Hflag. simpl.
    destruct (String.eqb_spec url (loader_url self)); [contradiction | done]. }
  assert (Hpost : Application.pages_loaded (Application.page_loaded self url).1 after
                  = ((Application.page_loaded self url).1, [])).
  { apply pages_loaded_after. by rewrite Hstep. }
  assert (Hall : Application.pages_loaded self (before ++ url :: after)
                 = ((Application.page_loaded self url).1, [ClearHistory])).
  { rewrite pages_loaded_app, Hpre. simpl.
    rewrite Hstep in *. simpl in *. by rewrite Hpost. }
  rewrite Hall, Hstep. simpl. repeat split; try done.
  by rewrite Hstep in Hpost.
Qed.

Lemma page_loaded_clears_history_once_witness :
  let self := {| loader_url := "file:///app/assets/_load-en_US.html";
                 kolibri_loaded := false; view := 0; windows := [0];
                 next_window := 1 |} in
  let url := "http://localhost:5000/learn" in
  kolibri_loaded self = false
  /\ Forall (fun u => u = loader_url self) [loader_url self]
  /\ url <> loader_url self
  /\ history_clears
       (Application.pages_loaded self ([loader_url self] ++ url :: [url; loader_url self])).2
     = 1%nat.
Proof.
  intros self url.
  assert (H1 : kolibri_loaded self = false) by reflexivity.
  assert (H2 : Forall (fun u => u = loader_url self) [loader_url self])
    by (constructor; [reflexivity | constructor]).
  assert (H3 : url <> loader_url self) by discriminate.
  split; [exact H1|]. split; [exact H2|]. split; [exact H3|].
  apply (page_loaded_clears_history_once self [loader_url self] url
           [url; loader_url self] H1 H2 H3).
Defined.

End PageLoaded.

(** ** The readiness poller *)

Section Poller.

Local Abbreviation wait_loop := (Application.wait_loop KOLIBRI_ROOT_URL 20 3).
Local Abbreviation running := (Application.running KOLIBRI_ROOT_URL).
Local Abbreviation loop_body := (Application.loop_body 20 3).

Lemma observe_app t t' : observe (t ++ t') = observe t ++ observe t'.
Proof. apply List.filter_app. Qed.

Lemma signals_observe t : signals (observe t) = signals t.
Proof.
  induction t as [|e t IH]; [done|]. destruct e; simpl; by rewrite ?IH.
Qed.

Lemma loads_observe t : loads (observe t) = loads t.
Proof.
  induction t as [|e t IH]; [done|]. destruct e; simpl; by rewrite ?IH.
Qed.

Lemma requests_observe t : requests (observe t) = requests t.
Proof.
  unfold requests.
  induction t as [|e t IH]; [done|]. destruct e; simpl; by rewrite ?IH.
Qed.

Lemma reads_observe t : view_state_reads (observe t) = view_state_reads t.
Proof.
  unfold view_state_reads.
  induction t as [|e t IH]; [done|]. destruct e; simpl; by rewrite ?IH.
Qed.

Lemma loads_app t t' : loads (t ++ t') = loads t ++ loads t'.
Proof. apply flat_map_app. Qed.

Lemma signals_app t t' : signals (t ++ t') = signals t ++ signals t'.
Proof. apply flat_map_app. Qed.

Lemma reads_app t t' :
  view_state_reads (t ++ t') = (view_state_reads t + view_state_reads t')%nat.
Proof. unfold view_state_reads. by rewrite List.filter_app, length_app. Qed.

(** A check shows the server one request, whatever its outcome. *)
Lemma observe_running p : observe (running p).2 = [Urlopen KOLIBRI_ROOT_URL].
Proof. by destruct p. Qed.

Lemma running_quiet p :
  loads (running p).2 = [] /\ view_state_reads (running p).2 = 0%nat
  /\ signals (running p).2 = [].
Proof. by destruct p. Qed.

(** The three ways through the loop body. *)
Lemma loop_body_cases c :
  (time_spent c + 1 <= 20 /\ exists t,
     loop_body c = (Continue {| time_spent := time_spent c + 1;
                                load_retries := load_retries c |}, t)
     /\ observe t = [Sleep 1] /\ signals t = [])
  \/ (20 < time_spent c + 1 /\ load_retries c < 3 /\ exists t,
     loop_body c = (Continue {| time_spent := 0;
                                load_retries := load_retries c + 1 |}, t)
     /\ observe t = [Sleep 1; EvaluateJavascript "show_retry()"]
     /\ signals t = ["show_retry()"])
  \/ (20 < time_spent c + 1 /\ 3 <= load_retries c /\ exists t,
     loop_body c = (Return_, t)
     /\ observe t = [Sleep 1; EvaluateJavascript "show_error()"]
     /\ signals t = ["show_error()"]).
Proof.
  unfold Application.loop_body.
  destruct (Nat.ltb_spec 20 (time_spent c + 1)) as [Hout|Hin].
  - destruct (Nat.ltb_spec (load_retries c) 3) as [Hretry|Hcap].
    + right; left. repeat split; [lia..|]. eexists. by repeat split.
    + right; right. repeat split; [lia..|]. eexists. by repeat split.
  - left. split; [lia|]. eexists. by repeat split.
Qed.

Lemma loop_body_observe c : loads (loop_body c).2 = []
  /\ view_state_reads (loop_body c).2 = 0%nat.
Proof.
  unfold Application.loop_body.
  destruct (20 <? time_spent c + 1)%nat; [|done].
  by destruct (load_retries c <? 3)%nat.
Qed.

(** The loop itself never reads the view state and never navigates. *)
Lemma wait_loop_no_navigation fuel server : forall attempt c how t,
  wait_loop fuel server attempt c = Some (how, t) ->
  loads t = [] /\ view_state_reads t = 0%nat.
Proof.
  induction fuel as [|fuel IH]; intros attempt c how t; [done|]. simpl.
  destruct (running_quiet (server attempt)) as (Hl & Hr & _).
  destruct (running (server attempt)) as [up tr]. simpl in *.
  destruct up; [by intros [= <- <-]|].
  destruct (loop_body_observe c) as [Hl' Hr'].
  destruct (loop_body c) as [[c'|] t']; simpl in *.
  - destruct (wait_loop fuel server (S attempt) c') as [[how' rest]|] eqn:Hrest;
      [|done].
    intros [= <- <-]. destruct (IH _ _ _ _ Hrest) as [Hl'' Hr''].
    rewrite !loads_app, !reads_app, Hl, Hl', Hl'', Hr, Hr', Hr''. done.
  - intros [= <- <-]. rewrite !loads_app, !reads_app, Hl, Hl', Hr, Hr'. done.
Qed.

(** Once the loop is left, more rounds allowed change nothing. *)
Lemma wait_loop_more_fuel fuel server : forall attempt c r extra,
  wait_loop fuel server attempt c = Some r ->
  wait_loop (fuel + extra) server attempt c = Some r.
Proof.
  induction fuel as [|fuel IH]; intros attempt c r extra; [done|]. simpl.
  destruct (running (server attempt)) as [up tr].
  destruct up; [done|].
  destruct (loop_body c) as [[c'|] t']; [|done].
  destruct (wait_loop fuel server (S attempt) c') as [[how rest]|] eqn:Hrest;
    [|done].
  by rewrite (IH _ _ _ extra Hrest).
Qed.

(** What the server and the view see depends on the outcomes of the
    checks made only. *)
Lemma wait_loop_agree fuel (server server' : nat -> probe) : forall attempt c,
  (forall n, attempt <= n < attempt + fuel ->
             (running (server n)).1 = (running (server' n)).1) ->
  observed (wait_loop fuel server attempt c)
  = observed (wait_loop fuel server' attempt c).
Proof.
  induction fuel as [|fuel IH]; intros attempt c Hsame; [done|]. simpl.
  pose proof (Hsame attempt ltac:(lia)) as Hnow.
  pose proof (observe_running (server attempt)) as Hobs.
  pose proof (observe_running (server' attempt)) as Hobs'.
  destruct (running (server attempt)) as [up tr].
  destruct (running (server' attempt)) as [up' tr'].
  simpl in *. subst up'.
  destruct up; [simpl; congruence|].
  destruct (loop_body c) as [[c'|] t'].
  - specialize (IH (S attempt) c' ltac:(intros; apply Hsame; lia)).
    destruct (wait_loop fuel server (S attempt) c') as [[how rest]|];
      destruct (wait_loop fuel server' (S attempt) c') as [[how' rest']|];
      simpl in *; try done.
    injection IH as -> Hrest. by rewrite !observe_app, Hobs, Hobs', Hrest.
  - simpl. by rewrite !observe_app, Hobs, Hobs'.
Qed.

Lemma observed_Some r how t :
  observed r = Some (how, t) -> exists t', r = Some (how, t') /\ observe t' = t.
Proof. destruct r as [[how' t']|]; [|done]. intros [= -> <-]. eauto. Qed.

Lemma unanswered_run :
  observed (wait_loop 84 silent 0 start) = Some (GaveUp, unanswered).
Proof. vm_compute. reflexivity. Qed.

Lemma answered_table : forallb answered_check (seq 0 84) = true.
Proof. vm_compute. reflexivity. Qed.

(** C1: against a server that never answers, [wait_for_server] (timeout 20,
    3 retries) gives up: the server and the view see a request followed by
    a one-second wait, over and over; after each run of 21 such rounds a
    single [show_retry()] is injected, three times in all, and after the
    fourth run a single [show_error()], which is the last thing that
    happens however many more rounds are allowed: no request follows it and
    no navigation is ever issued. In the loop body, a round that exhausts
    the period below the retry cap injects one [show_retry()] and resets
    [time_spent] to zero, one at the cap injects one [show_error()] and
    returns, and any other round injects nothing. *)
Theorem unanswered_server_retries_then_fails
    (server : nat -> probe) (saved_state : gmap string string) (fuel : nat)
    (c : counters) :
  (forall n, (running (server n)).1 = false) ->
  84 <= fuel ->
  (exists t,
     Application.wait_for_server fuel server saved_state = Some (GaveUp, t)
     /\ observe t = unanswered
     /\ signals t = ["show_retry()"; "show_retry()"; "show_retry()"; "show_error()"]
     /\ requests t = 84
     /\ loads t = [])
  /\ ((time_spent c + 1 <= 20 /\ exists t,
         loop_body c = (Continue {| time_spent := time_spent c + 1;
                                    load_retries := load_retries c |}, t)
         /\ observe t = [Sleep 1] /\ signals t = [])
      \/ (20 < time_spent c + 1 /\ load_retries c < 3 /\ exists t,
         loop_body c = (Continue {| time_spent := 0;
                                    load_retries := load_retries c + 1 |}, t)
         /\ observe t = [Sleep 1; EvaluateJavascript "show_retry()"]
         /\ signals t = ["show_retry()"])
      \/ (20 < time_spent c + 1 /\ 3 <= load_retries c /\ exists t,
         loop_body c = (Return_, t)
         /\ observe t = [Sleep 1; EvaluateJavascript "show_error()"]
         /\ signals t = ["show_error()"])).
Proof.
  intros Hsilent Hfuel. split; [|apply loop_body_cases].
  assert (Hrun : observed (wait_loop 84 server 0 start) = Some (GaveUp, unanswered)).
  { rewrite <- unanswered_run. apply wait_loop_agree. intros n _. apply Hsilent. }
  apply observed_Some in Hrun as (t & Hloop & Hobs).
  apply (wait_loop_more_fuel _ _ _ _ _ (fuel - 84)) in Hloop.
  replace (84 + (fuel - 84)) with fuel in Hloop by lia.
  exists t. unfold Application.wait_for_server, Application.wait_for_server_with.
  fold start. rewrite Hloop. split; [done|]. split; [done|].
  rewrite <- signals_observe, <- requests_observe, <- loads_observe, Hobs.
  by vm_compute.
Qed.

Lemma unanswered_server_retries_then_fails_witness :
  (forall n, (running (silent n)).1 = false)
  /\ 84 <= 100
  /\ exists t, Application.wait_for_server 100 silent ∅ = Some (GaveUp, t)
              /\ observe t = unanswered.
Proof.
  assert (H1 : forall n, (running (silent n)).1 = false) by (intros n; reflexivity).
  assert (H2 : 84 <= 100) by lia.
  split; [exact H1|]. split; [exact H2|].
  destruct (unanswered_server_retries_then_fails silent ∅ 100 start H1 H2)
    as [(t & Hrun & Hobs & _) _].
  exists t. split; [exact Hrun | exact Hobs].
Defined.

(** C6: when the [k]-th check is the first one answered and the loop has
    not given up before it ([k < 84]), [wait_for_server] leaves the loop
    with the server running and goes on to navigate: the server and the
    view saw the periods that elapsed in full, each closed by one
    [show_retry()], then the unanswered checks of the running period and
    the answered one; so there are [k / 21] retry signals, no error signal,
    [k + 1] requests, and one navigation. *)
Theorem answered_server_is_loaded
    (server : nat -> probe) (saved_state : gmap string string) (k fuel : nat) :
  (forall n, n < k -> (running (server n)).1 = false) ->
  (running (server k)).1 = true ->
  k < 84 ->
  k < fuel ->
  exists t,
    Application.wait_for_server fuel server saved_state
    = Some (ServerRunning, t ++ Application.navigate KOLIBRI_ROOT_URL saved_state)
    /\ observe t = answered_after k
    /\ signals (t ++ Application.navigate KOLIBRI_ROOT_URL saved_state)
       = replicate (k / 21) "show_retry()"
    /\ requests (t ++ Application.navigate KOLIBRI_ROOT_URL saved_state) = S k
    /\ loads (t ++ Application.navigate KOLIBRI_ROOT_URL saved_state)
       = [landing saved_state].
Proof.
  intros Hbefore Hat Hk Hfuel.
  pose proof answered_table as Htable.
  rewrite forallb_forall in Htable.
  specialize (Htable k ltac:(apply in_seq; lia)).
  unfold answered_check in Htable.
  apply andb_prop in Htable as [Htable Hreq%bool_decide_eq_true].
  apply andb_prop in Htable as [Hrun%bool_decide_eq_true Hsig%bool_decide_eq_true].
  assert (Hsame : observed (wait_loop (S k) server 0 start)
                  = observed (wait_loop (S k) (answers_at k) 0 start)).
  { apply wait_loop_agree. intros n Hn. unfold answers_at.
    destruct (Nat.ltb_spec n k) as [Hlt|Hge].
    - by apply Hbefore.
    - replace n with k by lia. exact Hat. }
  rewrite Hrun in Hsame. apply observed_Some in Hsame as (t & Hloop & Hobs).
  pose proof (wait_loop_no_navigation _ _ _ _ _ _ Hloop) as [Hloads _].
  apply (wait_loop_more_fuel _ _ _ _ _ (fuel - S k)) in Hloop.
  replace (S k + (fuel - S k)) with fuel in Hloop by lia.
  exists t. unfold Application.wait_for_server, Application.wait_for_server_with.
  fold start. rewrite Hloop. split; [done|]. split; [done|].
  assert (Hnav : signals (Application.navigate KOLIBRI_ROOT_URL saved_state) = []
                 /\ requests (Application.navigate KOLIBRI_ROOT_URL saved_state) = 0
                 /\ loads (Application.navigate KOLIBRI_ROOT_URL saved_state)
                    = [landing saved_state]).
  { unfold Application.navigate, landing.
    destruct (saved_state !! "URL") as [url|]; [|done].
    by destruct (PyStr.startswith url KOLIBRI_ROOT_URL). }
  destruct Hnav as (Hnsig & Hnreq & Hnloads).
  rewrite signals_app, loads_app, Hnsig, Hnloads, Hloads, app_nil_r.
  rewrite <- signals_observe, Hobs, Hsig. split; [done|]. split; [|done].
  unfold requests in *. rewrite List.filter_app, length_app.
  fold (requests t). rewrite <- requests_observe, Hobs.
  unfold requests. rewrite Hreq, Hnreq. lia.
Qed.

Lemma answered_server_is_loaded_witness :
  (forall n, n < 30 -> (running (answers_at 30 n)).1 = false)
  /\ (running (answers_at 30 30)).1 = true
  /\ 30 < 84
  /\ 30 < 31
  /\ exists t,
       Application.wait_for_server 31 (answers_at 30) ∅
       = Some (ServerRunning, t ++ Application.navigate KOLIBRI_ROOT_URL ∅)
       /\ signals (t ++ Application.navigate KOLIBRI_ROOT_URL ∅) = ["show_retry()"].
Proof.
  assert (H1 : forall n, n < 30 -> (running (answers_at 30 n)).1 = false).
  { intros n Hn. unfold answers_at.
    destruct (Nat.ltb_spec n 30) as [_|Hge]; [reflexivity | lia]. }
  assert (H2 : (running (answers_at 30 30)).1 = true) by reflexivity.
  assert (H3 : 30 < 84) by lia.
  assert (H4 : 30 < 31) by lia.
  split; [exact H1|]. split; [exact H2|]. split; [exact H3|]. split; [exact H4|].
  destruct (answered_server_is_loaded (answers_at 30) ∅ 30 31 H1 H2 H3 H4)
    as (t & Hrun & _ & Hsig & _).
  exists t. split; [exact Hrun | exact Hsig].
Defined.

(** C3, as the code has it: when the loop is left with the server running,
    [wait_for_server] reads the view state twice, first the snapshot it
    decides on and then again for the debug log, and issues one navigation
    as the last thing it does: to the snapshot's [URL] entry when there is
    one that starts with the root URL [http://localhost:5000], and to the
    root URL otherwise. *)
Theorem running_server_navigates_once
    (server : nat -> probe) (saved_state : gmap string string) (fuel : nat)
    (t : trace) :
  Application.wait_for_server fuel server saved_state = Some (ServerRunning, t) ->
  view_state_reads t = 2
  /\ loads t = [landing saved_state]
  /\ exists t0,
       t = t0 ++ [GetViewState; GetViewState; Log DEBUG "Persisted View State";
                  LoadUrl (landing saved_state)]
       /\ view_state_reads t0 = 0 /\ loads t0 = [].
Proof.
  unfold Application.wait_for_server, Application.wait_for_server_with.
  destruct (Application.wait_loop _ _ _ fuel server 0 _) as [[[|] t0]|] eqn:Hloop;
    [|done..].
  intros [= <-].
  destruct (wait_loop_no_navigation _ _ _ _ _ _ Hloop) as [Hloads Hreads].
  assert (Hnav : Application.navigate KOLIBRI_ROOT_URL saved_state
                 = [GetViewState; GetViewState; Log DEBUG "Persisted View State";
                    LoadUrl (landing saved_state)]).
  { unfold Application.navigate, landing.
    destruct (saved_state !! "URL") as [url|]; [|done].
    by destruct (PyStr.startswith url KOLIBRI_ROOT_URL). }
  rewrite Hnav, reads_app, loads_app, Hloads, Hreads.
  split; [done|]. split; [done|]. by exists t0.
Qed.

Lemma running_server_navigates_once_witness :
  let saved_state : gmap string string := {["URL" := "http://localhost:5000/learn"]} in
  let t := [Urlopen KOLIBRI_ROOT_URL; GetViewState; GetViewState;
            Log DEBUG "Persisted View State"; LoadUrl "http://localhost:5000/learn"] in
  Application.wait_for_server 1 (answers_at 0) saved_state = Some (ServerRunning, t)
  /\ view_state_reads t = 2
  /\ loads t = ["http://localhost:5000/learn"].
Proof.
  intros saved_state t.
  assert (H1 : Application.wait_for_server 1 (answers_at 0) saved_state
               = Some (ServerRunning, t)) by (vm_compute; reflexivity).
  split; [exact H1|].
  destruct (running_server_navigates_once (answers_at 0) saved_state 1 t H1)
    as (Hreads & Hloads & _).
  split; [exact Hreads | exact Hloads].
Defined.

(** Against C3 as worded: the view state is read twice, not once, when the
    server answers the first check; and a saved URL on another port, hence of another origin,
    passes the prefix test and is navigated to. *)
Lemma view_state_read_twice :
  let t := [Urlopen KOLIBRI_ROOT_URL; GetViewState; GetViewState;
            Log DEBUG "Persisted View State"; LoadUrl KOLIBRI_ROOT_URL] in
  let elsewhere := "http://localhost:50001/x" in
  Application.wait_for_server 1 (answers_at 0) ∅ = Some (ServerRunning, t)
  /\ view_state_reads t = 2
  /\ view_state_reads t <> 1
  /\ url_origin elsewhere <> url_origin KOLIBRI_ROOT_URL
  /\ option_map (fun r => loads r.2)
       (Application.wait_for_server 1 (answers_at 0) {["URL" := elsewhere]})
     = Some [elsewhere].
Proof. vm_compute. repeat split; try reflexivity; discriminate. Qed.

End Poller.

(** ** The window list *)

Section Windows.

Implicit Types (l r : list nat) (a : app).

Lemma list_remove_absent x l : x ∉ l -> exists e, list_remove x l = inl e.
Proof.
  induction l as [|y l IH]; intros Hx; [by eexists|]. simpl.
  apply not_elem_of_cons in Hx as [Hne Hx].
  destruct (Nat.eqb_spec y x) as [->|_]; [done|].
  destruct (IH Hx) as [e ->]. by eexists.
Qed.

Lemma list_remove_present x l r : list_remove x l = inr r -> x ∈ l.
Proof.
  intros Hr. destruct (decide (x ∈ l)) as [Hin|Hout]; [done|].
  destruct (list_remove_absent x l Hout) as [e He]. congruence.
Qed.

(** On a list without repetition [remove] leaves the other elements. *)
Lemma list_remove_filter x l :
  NoDup l -> x ∈ l ->
  list_remove x l = inr (filter (fun y => y ≠ x) l)
  /\ length l = S (length (filter (fun y => y ≠ x) l)).
Proof.
  induction l as [|y l IH]; intros Hnd Hx; [by apply elem_of_nil in Hx|].
  apply NoDup_cons in Hnd as [Hy Hnd]. simpl.
  destruct (Nat.eqb_spec y x) as [->|Hne].
  - rewrite filter_cons_False by (intros ?; done).
    assert (Hid : filter (fun y => y ≠ x) l = l).
    { clear -Hy. induction l as [|z l IH]; [done|].
      apply not_elem_of_cons in Hy as [Hne Hy].
      rewrite filter_cons_True by done. by rewrite IH. }
    by rewrite Hid.
  - apply elem_of_cons in Hx as [->|Hx]; [done|].
    destruct (IH Hnd Hx) as [-> Hlen].
    rewrite filter_cons_True by done. simpl. by rewrite Hlen.
Qed.

Lemma react_tracks a history e a' t :
  tracks a history -> react a e = inr (a', t) -> tracks a' (history ++ [e]).
Proof.
  intros (Hnd & Hopen & Hclosed & Hnext). destruct e as [|w]; simpl.
  - intros [= <- <-]. unfold tracks. simpl. split; [|split; [|split]].
    + apply NoDup_app. split; [done|]. split; [|apply NoDup_singleton].
      intros w Hw Hin. apply list_elem_of_singleton in Hin as ->.
      apply Hopen in Hw as [Hlt _]. lia.
    + intros w. rewrite elem_of_app, list_elem_of_singleton, Hopen.
      rewrite elem_of_app, list_elem_of_singleton. split.
      * intros [[Hlt Hno]| ->].
        -- split; [lia|]. intros [Hin|Hin]; [done|discriminate].
        -- split; [lia|]. intros [Hin%Hclosed|Hin]; [lia|discriminate].
      * intros [Hlt Hno]. destruct (decide (w = next_window a)) as [->|Hne].
        -- by right.
        -- left. split; [lia|]. intros Hin. apply Hno. by left.
    + intros w [Hin%Hclosed|Hin%list_elem_of_singleton]%elem_of_app; [lia|done].
    + rewrite filter_app, length_app, Hnext.
      rewrite filter_cons_True by done. rewrite filter_nil. simpl. lia.
  - unfold KolibriView.shutdown.
    destruct (list_remove w (windows a)) as [e|remaining] eqn:Hrem; [done|].
    pose proof (list_remove_present _ _ _ Hrem) as Hw.
    destruct (list_remove_filter w (windows a) Hnd Hw) as [Hfilter _].
    rewrite Hrem in Hfilter. injection Hfilter as ->.
    intros Ha'.
    assert (Hwin : windows a' = filter (fun y => y ≠ w) (windows a)
                   /\ next_window a' = next_window a).
    { destruct (0 <? length _); by injection Ha' as <- _. }
    destruct Hwin as [Hwin Hnext']. clear Ha'.
    unfold tracks. rewrite Hwin, Hnext'. split; [|split; [|split]].
    + by apply NoDup_filter.
    + intros y. rewrite list_elem_of_filter, Hopen.
      rewrite elem_of_app, list_elem_of_singleton. split.
      * intros [Hne [Hlt Hno]]. split; [done|].
        intros [Hin|Hin]; [done|]. by injection Hin as ->.
      * intros [Hlt Hno]. split.
        -- intros ->. apply Hno. by right.
        -- split; [done|]. intros Hin. apply Hno. by left.
    + intros y [Hin%Hclosed|Hin%list_elem_of_singleton]%elem_of_app; [done|].
      injection Hin as ->. by apply Hopen in Hw as [? _].
    + rewrite filter_app, length_app, Hnext.
      rewrite filter_cons_False by done. rewrite filter_nil. simpl. lia.
Qed.

Lemma run_tracks events : forall a history a' t,
  tracks a history -> run a events = inr (a', t) -> tracks a' (history ++ events).
Proof.
  induction events as [|e events IH]; intros a history a' t Htr; simpl.
  - intros [= <- _]. by rewrite app_nil_r.
  - destruct (react a e) as [err|[a1 t1]] eqn:Hreact; [done|].
    destruct (run a1 events) as [err|[a2 t2]] eqn:Hrun; [done|].
    intros [= <- _].
    replace (history ++ e :: events) with ((history ++ [e]) ++ events)
      by by rewrite <- app_assoc.
    eapply IH; [|exact Hrun]. by eapply react_tracks.
Qed.

Lemma setUp_tracks abspath path_exists locale a0 t0 :
  Application.setUp abspath path_exists locale = inr (a0, t0) -> tracks a0 [].
Proof.
  unfold Application.setUp. destruct (locale !! "language"); [|done].
  intros [= <- _]. unfold tracks. simpl. split; [|split; [|split]].
  - apply NoDup_singleton.
  - intros w. rewrite list_elem_of_singleton. split.
    + intros ->. split; [lia | apply not_elem_of_nil].
    + intros [Hlt _]. lia.
  - intros w Hin. by apply elem_of_nil in Hin.
  - done.
Qed.

(** C5: after [setUp] and any history of window events the application
    went through (every close being that of a window in the list), the
    window list holds each window created and not closed, once: so it is
    empty only when every window created has been closed. A new window
    appends one fresh handle to it. Closing a window of the list removes
    that handle and nothing else, and runs the toolkit's shutdown when the
    list is empty after the removal and only then. *)
Theorem window_list_tracks_open_windows
    (abspath : string -> string) (path_exists : string -> bool)
    (locale : gmap string string) (a0 : app) (t0 : trace)
    (events : list window_event) (a : app) (t : trace) :
  Application.setUp abspath path_exists locale = inr (a0, t0) ->
  run a0 events = inr (a, t) ->
  NoDup (windows a)
  /\ (forall w, w ∈ windows a <-> w < next_window a /\ CloseWindow w ∉ events)
  /\ next_window a = S (length (filter (fun e => e = NewWindow) events))
  /\ (windows a = [] <-> forall w, w < next_window a -> CloseWindow w ∈ events)
  /\ (exists a',
        MenuEventHandler.on_new_window (Some a) = (Some a', [ShowWindow (next_window a)])
        /\ windows a' = windows a ++ [next_window a]
        /\ next_window a ∉ windows a)
  /\ (forall w, w ∈ windows a ->
        exists a',
          KolibriView.shutdown w (Some a)
          = inr (Some a', if decide (windows a' = []) then [SuperShutdown] else [])
          /\ windows a' = filter (fun y => y ≠ w) (windows a)
          /\ length (windows a) = S (length (windows a'))).
Proof.
  intros Hsetup Hrun.
  pose proof (run_tracks events a0 [] a t (setUp_tracks _ _ _ _ _ Hsetup) Hrun)
    as (Hnd & Hopen & Hclosed & Hnext).
  simpl in *. split; [done|]. split; [done|]. split; [done|].
  split; [|split].
  - split.
    + intros Hempty w Hlt.
      destruct (decide (CloseWindow w ∈ events)) as [Hin|Hout]; [done|].
      assert (w ∈ windows a) as Hw by by apply Hopen.
      rewrite Hempty in Hw. by apply elem_of_nil in Hw.
    + intros Hall. destruct (windows a) as [|w l] eqn:Hl; [done|].
      assert (w ∈ w :: l) as Hw by left.
      apply Hopen in Hw as [Hlt Hno]. by apply Hall in Hlt.
  - eexists. simpl. split; [done|]. split; [done|].
    intros Hin%Hopen. lia.
  - intros w Hw. unfold KolibriView.shutdown.
    destruct (list_remove_filter w (windows a) Hnd Hw) as [-> Hlen].
    exists {| loader_url := loader_url a; kolibri_loaded := kolibri_loaded a;
              view := view a; windows := filter (fun y => y ≠ w) (windows a);
              next_window := next_window a |}.
    simpl. split; [|done].
    destruct (filter (fun y => y ≠ w) (windows a)) as [|y l]; reflexivity.
Qed.

Lemma window_list_tracks_open_windows_witness :
  let locale : gmap string string := {["language" := "en_US"]} in
  let a0 := {| loader_url := "file:///app/assets/_load-en_US.html";
               kolibri_loaded := false; view := 0; windows := [0];
               next_window := 1 |} in
  let a := {| loader_url := "file:///app/assets/_load-en_US.html";
              kolibri_loaded := false; view := 0; windows := [1];
              next_window := 2 |} in
  Application.setUp app_abspath (assets_for ["en_US"]) locale = inr (a0, [ShowWindow 0])
  /\ run a0 [NewWindow; CloseWindow 0] = inr (a, [ShowWindow 1])
  /\ NoDup (windows a).
Proof.
  intros locale a0 a.
  assert (H1 : Application.setUp app_abspath (assets_for ["en_US"]) locale
               = inr (a0, [ShowWindow 0])) by (vm_compute; reflexivity).
  assert (H2 : run a0 [NewWindow; CloseWindow 0] = inr (a, [ShowWindow 1]))
    by (vm_compute; reflexivity).
  split; [exact H1|]. split; [exact H2|].
  apply (window_list_tracks_open_windows _ _ _ _ _ _ _ _ H1 H2).
Defined.

End Windows.

(** ** The loading page and the startup locale *)

Section LoadingPage.

Variable abspath : string -> string.
Variable path_exists : string -> bool.

Local Abbreviation asset := (Application.loader_asset abspath).
Local Abbreviation resolve := (Application.resolve_loader_page abspath path_exists).

(** The pages [setUp] tries, in order. *)
Lemma resolve_loader_page_chain (lang_id : string) :
  resolve lang_id
  = if path_exists (asset lang_id) then asset lang_id
    else if path_exists (asset (PyStr.split_head "-" lang_id))
         then asset (PyStr.split_head "-" lang_id)
         else asset "en_US".
Proof.
  unfold Application.resolve_loader_page.
  destruct (path_exists (asset lang_id)) eqn:Hexact; simpl.
  - by rewrite Hexact.
  - by destruct (path_exists (asset (PyStr.split_head "-" lang_id))).
Qed.

(** With the English page in place the page chosen exists. *)
Lemma resolve_loader_page_exists (lang_id : string) :
  path_exists (asset "en_US") = true -> path_exists (resolve lang_id) = true.
Proof.
  intros Hdefault. rewrite resolve_loader_page_chain.
  destruct (path_exists (asset lang_id)) eqn:Hexact; [done|].
  by destruct (path_exists (asset (PyStr.split_head "-" lang_id))) eqn:Hbase.
Qed.

Lemma split_head_without (c : ascii) (s : string) :
  PyStr.has_char c s = false -> PyStr.split_head c s = s.
Proof.
  induction s as [|b s IH]; [done|]. simpl.
  destruct (Ascii.eqb b c); [done|]. simpl. intros Hs. by rewrite IH.
Qed.

(** A tag without a hyphen, as [en_US] or [pt_BR], has its second try spent
    on the same page as the first: the page of the language before the
    underscore is not looked at. *)
Lemma resolve_loader_page_underscore (lang_id : string) :
  PyStr.has_char "-" lang_id = false ->
  resolve lang_id
  = if path_exists (asset lang_id) then asset lang_id else asset "en_US".
Proof.
  intros Hno. rewrite resolve_loader_page_chain, (split_head_without _ _ Hno).
  by destruct (path_exists (asset lang_id)).
Qed.

(** When reading the catalogs raises, the locale is [en_US], a warning is
    logged, and [setUp] shows the first window on a loading page. *)
Lemma unreadable_catalog_falls_back (found : list Gettext.mofile) (err : exn) :
  Gettext.translation found true = inl err ->
  locale_info found
  = (<["language" := "en_US"]> ∅,
     [Log WARNING "Error retrieving language"; Log INFO "Locale info"])
  /\ exists a, Application.setUp abspath path_exists (locale_info found).1
               = inr (a, [ShowWindow (view a)])
               /\ loader_url a = "file://" +:+ resolve "en_US"
               /\ windows a = [view a].
Proof.
  intros Hraise. unfold locale_info. rewrite Hraise. split; [done|].
  exists {| loader_url := "file://" +:+ resolve "en_US"; kolibri_loaded := false;
            view := 0; windows := [0]; next_window := 1 |}.
  simpl. unfold Application.setUp. by rewrite lookup_insert_eq.
Qed.

(** C4: with no message catalog to be found, [gettext.translation] falls
    back to a [NullTranslations] whose [info()] is empty: nothing is raised,
    [locale_info] has no [language] entry, no warning is logged, and
    [setUp] stops on a [KeyError] before any window is shown. The same
    happens with a catalog whose header names no language. *)
Theorem missing_catalog_breaks_setUp :
  Gettext.translation [] true = inr Gettext.NullTranslations
  /\ locale_info [] = (∅, [Log INFO "Locale info"])
  /\ Application.setUp abspath path_exists (locale_info []).1
     = inl (KeyError "language")
  /\ Application.setUp abspath path_exists (locale_info [Gettext.Catalog ∅]).1
     = inl (KeyError "language").
Proof. by repeat split. Qed.

End LoadingPage.

(** C2: for the tag [pt_BR], with the pages of [pt] and [en_US] in place
    and none for [pt_BR], [setUp] takes the English page: the page of the
    base language [pt] exists and is passed over, because the tag is cut at
    a hyphen and has none. The tag [pt-BR] gets the page of [pt]. *)
Theorem loader_page_skips_base_language :
  let path_exists := assets_for ["pt"; "en_US"] in
  path_exists (Application.loader_asset app_abspath "pt_BR") = false
  /\ path_exists (Application.loader_asset app_abspath "pt") = true
  /\ Application.resolve_loader_page app_abspath path_exists "pt_BR"
     = "/app/assets/_load-en_US.html"
  /\ Application.resolve_loader_page app_abspath path_exists "pt-BR"
     = "/app/assets/_load-pt.html".
Proof. vm_compute. by repeat split. Qed.

(** ** The packaging helper *)

Section PackagingHelper.

Variable std_lib : string.

Lemma sticky_flag {A} (f : A -> bool) (l : list A) (flag : bool) :
  fold_left (fun exclude x => if f x then true else exclude) l flag
  = flag || existsb f l.
Proof.
  revert flag. induction l as [|x l IH]; intros flag; simpl.
  - by rewrite orb_false_r.
  - rewrite IH. destruct (f x), flag; done.
Qed.

Lemma excluded_existsb (module_path : string) :
  StdlibTool.excluded module_path
  = existsb (PyStr.contains module_path) StdlibTool.excludes.
Proof. unfold StdlibTool.excluded. by rewrite sticky_flag. Qed.

Lemma join_app (l k : list string) :
  PyStr.join (l ++ k) = PyStr.join l +:+ PyStr.join k.
Proof.
  induction l as [|x l IH]; [done|]. simpl. by rewrite IH, append_assoc.
Qed.

Lemma visit_files (top : string) (files : list string) : forall script,
  fold_left (StdlibTool.visit_file std_lib top) files script
  = script
    +:+ PyStr.join
          (map (fun file => StdlibTool.import_statement
                              (StdlibTool.module_path std_lib file.1 file.2))
               (List.filter (kept std_lib) (map (pair top) files))).
Proof.
  induction files as [|nm files IH]; intros script; simpl.
  - by rewrite append_empty_r.
  - rewrite IH. unfold StdlibTool.visit_file, kept. simpl.
    rewrite excluded_existsb.
    destruct (PyStr.endswith nm ".py" && negb _); simpl; [|done].
    by rewrite append_assoc.
Qed.

(** The loops of [generate_stdlib_imports] write the statements of the
    files kept, one after the other in visiting order. *)
Lemma build_script_statements (walk : list StdlibTool.walk_entry) :
  StdlibTool.build_script std_lib walk = PyStr.join (statements std_lib walk).
Proof.
  unfold StdlibTool.build_script.
  assert (Hgen : forall script,
    fold_left (fun script '(top, _, files) =>
                 fold_left (StdlibTool.visit_file std_lib top) files script)
              walk script
    = script +:+ PyStr.join (statements std_lib walk)).
  { induction walk as [|[[top dirs] files] walk IH]; intros script; simpl.
    - by rewrite append_empty_r.
    - rewrite IH, visit_files, append_assoc. f_equal.
      unfold statements, walked_files. simpl.
      by rewrite List.filter_app, map_app, join_app. }
  by rewrite Hgen.
Qed.

End PackagingHelper.

(** C7: the exclusion list names [__init__.py], and
    [generate_stdlib_imports] still writes an import statement for the file
    [json/__init__.py]: the entry is looked for in the module path
    [json.__init__], which has lost its [.py]. *)
Theorem init_modules_are_imported :
  let std_lib := "/usr/lib/python3.6" in
  let walk := [("/usr/lib/python3.6/json", [], ["__init__.py"])] in
  In "__init__.py" StdlibTool.excludes
  /\ StdlibTool.module_path std_lib "/usr/lib/python3.6/json" "__init__.py"
     = "json.__init__"
  /\ StdlibTool.excluded "json.__init__" = false
  /\ StdlibTool.generate_stdlib_imports "/repo/tools" std_lib walk
     = [WriteFile "/repo/tools/../src/stdlib_imports.py"
          (StdlibTool.import_statement "json.__init__")].
Proof. vm_compute. repeat split; try reflexivity. tauto. Qed.

(** * Further properties of the code *)

(** ** The log writer: chunking, flushing, text without newline *)

Section LoggerWriterMore.

Implicit Types (s t buffer : string) (calls : list string).

Lemma has_char_append c s t :
  PyStr.has_char c (s +:+ t) = PyStr.has_char c s || PyStr.has_char c t.
Proof.
  induction s as [|b s IH]; [done|].
  rewrite append_cons. simpl. rewrite IH. by destruct (Ascii.eqb b c).
Qed.

Lemma find_without c s : PyStr.has_char c s = false -> PyStr.find c s = None.
Proof.
  induction s as [|b s IH]; [done|]. simpl.
  destruct (Ascii.eqb b c); [done|]. simpl. intros Hs. by rewrite IH.
Qed.

Lemma drain_without s : no_newline s -> LoggerWriter.drain s = ([], s).
Proof.
  intros Hs. apply find_without in Hs.
  destruct (drain_splits_lines s) as (Hrep & _ & _ & Hlen).
  destruct (LoggerWriter.drain s) as [calls rest]. simpl in *.
  assert (PyStr.count PyStr.newline s = 0) as Hzero.
  { apply count_without. by apply find_None. }
  rewrite Hzero in Hlen. destruct calls; [|done].
  rewrite <- Hrep. reflexivity.
Qed.

(** Two newline-free first lines of one text are the same line. *)
Lemma first_line_unique s t rest rest' :
  no_newline s -> no_newline t ->
  s +:+ String PyStr.newline rest = t +:+ String PyStr.newline rest' ->
  s = t /\ rest = rest'.
Proof.
  unfold no_newline. revert t. induction s as [|a s IH]; intros [|b t]; simpl.
  - intros _ _ [= ->]. done.
  - rewrite append_cons. intros _ Hb [= <- _]. done.
  - rewrite append_cons. intros Ha _ [= -> _]. done.
  - rewrite !append_cons. intros Ha Hb [= -> Hrest].
    apply orb_false_elim in Ha as [_ Ha]. apply orb_false_elim in Hb as [_ Hb].
    destruct (IH t Ha Hb Hrest) as [-> ->]. done.
Qed.

Lemma replay_cons s calls buffer :
  replay (s :: calls) buffer = s +:+ String PyStr.newline (replay calls buffer).
Proof.
  unfold replay. simpl. unfold StdlibTool.nl.
  by rewrite !append_assoc, append_cons, append_empty_l.
Qed.

(** A text has one decomposition into newline-free lines and a newline-free
    rest. *)
Lemma replay_unique calls : forall calls' buffer buffer',
  Forall no_newline calls -> no_newline buffer ->
  Forall no_newline calls' -> no_newline buffer' ->
  replay calls buffer = replay calls' buffer' ->
  calls = calls' /\ buffer = buffer'.
Proof.
  assert (Hnil : forall b, replay [] b = b) by reflexivity.
  induction calls as [|s calls IH]; intros [|s' calls'] buffer buffer' Hc Hb Hc' Hb'.
  - rewrite !Hnil. done.
  - rewrite replay_cons, Hnil. intros Heq. subst buffer.
    unfold no_newline in Hb.
    rewrite has_char_append in Hb. simpl in Hb. by rewrite orb_true_r in Hb.
  - rewrite replay_cons, Hnil. intros Heq. subst buffer'.
    unfold no_newline in Hb'.
    rewrite has_char_append in Hb'. simpl in Hb'. by rewrite orb_true_r in Hb'.
  - rewrite !replay_cons. intros Heq.
    apply Forall_cons in Hc as [Hs Hc]. apply Forall_cons in Hc' as [Hs' Hc'].
    destruct (first_line_unique _ _ _ _ Hs Hs' Heq) as [-> Hrest].
    destruct (IH _ _ _ Hc Hb Hc' Hb' Hrest) as [-> ->]. done.
Qed.

(** X1: how the text is cut into [write] calls does not matter: on a buffer
    without newline, writing the messages one by one makes the same writer
    calls and leaves the same buffer as writing their concatenation in one
    call. *)
Theorem writes_chunking_independent (buffer : string) (messages : list string) :
  no_newline buffer ->
  LoggerWriter.writes buffer messages
  = LoggerWriter.write buffer (PyStr.join messages).
Proof.
  intros Hb. unfold LoggerWriter.write.
  destruct (writes_split_lines messages buffer Hb) as (Hrep & Hcalls & Hrest & _).
  destruct (drain_splits_lines (buffer +:+ PyStr.join messages))
    as (Hrep' & Hcalls' & Hrest' & _).
  rewrite <- Hrep' in Hrep.
  destruct (replay_unique _ _ _ _ Hcalls Hrest Hcalls' Hrest' Hrep) as [H1 H2].
  destruct (LoggerWriter.writes buffer messages), (LoggerWriter.drain _).
  simpl in *. by subst.
Qed.

Lemma writes_chunking_independent_witness :
  no_newline "ab"
  /\ LoggerWriter.writes "ab" ["c"; StdlibTool.nl; "d" +:+ StdlibTool.nl +:+ "e"]
     = LoggerWriter.write "ab" ("c" +:+ StdlibTool.nl +:+ "d" +:+ StdlibTool.nl +:+ "e").
Proof.
  assert (H1 : no_newline "ab") by reflexivity.
  split; [exact H1|].
  apply (writes_chunking_independent "ab"
           ["c"; StdlibTool.nl; "d" +:+ StdlibTool.nl +:+ "e"] H1).
Defined.

(** X2: a message without newline, the empty one included, makes no writer
    call: it is appended to the buffer and stays there. *)
Theorem write_without_newline_buffers (buffer message : string) :
  no_newline buffer -> no_newline message ->
  LoggerWriter.write buffer message = ([], buffer +:+ message).
Proof.
  intros Hb Hm. unfold LoggerWriter.write. apply drain_without.
  unfold no_newline in *. by rewrite has_char_append, Hb, Hm.
Qed.

Lemma write_without_newline_buffers_witness :
  no_newline "Traceback " /\ no_newline "(most recent call last):"
  /\ LoggerWriter.write "Traceback " "(most recent call last):"
     = ([], "Traceback (most recent call last):").
Proof.
  assert (H1 : no_newline "Traceback ") by reflexivity.
  assert (H2 : no_newline "(most recent call last):") by reflexivity.
  split; [exact H1|]. split; [exact H2|].
  apply (write_without_newline_buffers _ _ H1 H2).
Defined.

(** X3: nothing written is lost or repeated: after any writes on a fresh
    writer and a [flush], the lines handed to the writer, with the newlines
    back between them, spell the text written; the buffer is empty and a
    second [flush] calls nothing. *)
Theorem flush_hands_over_the_rest (messages : list string) :
  let written := LoggerWriter.writes "" messages in
  let flushed := LoggerWriter.flush written.2 in
  replay written.1 (PyStr.join flushed.1) = PyStr.join messages
  /\ flushed.2 = ""
  /\ LoggerWriter.flush flushed.2 = ([], "").
Proof.
  intros written flushed. subst written flushed.
  destruct (writes_split_lines messages "" eq_refl) as (Hrep & _ & _ & _).
  destruct (LoggerWriter.writes "" messages) as [calls rest]. simpl in *.
  unfold LoggerWriter.flush.
  destruct (String.eqb_spec rest "") as [->|Hne]; simpl.
  - done.
  - by rewrite append_empty_r.
Qed.

End LoggerWriterMore.

(** ** Page loads, the loader URL and the URLs the view may load *)

Section PagesMore.

(** X4: for any state and any sequence of finished page loads, the history
    is cleared once when [kolibri_loaded] was unset and some load is not
    one of the loader URL, and not at all otherwise; the flag is set
    afterwards in exactly that case or when it was set before; and the
    loader URL, the main view and the window list are left as they were. *)
Theorem pages_loaded_clears_at_most_once (self : app) (urls : list string) :
  let after := Application.pages_loaded self urls in
  history_clears after.2
  = (if negb (kolibri_loaded self) && existsb (leaves_loader self) urls then 1 else 0)
  /\ kolibri_loaded after.1
     = kolibri_loaded self || existsb (leaves_loader self) urls
  /\ loader_url after.1 = loader_url self
  /\ view after.1 = view self
  /\ windows after.1 = windows self
  /\ next_window after.1 = next_window self.
Proof.
  revert self. induction urls as [|url urls IH]; intros self; simpl.
  - rewrite andb_false_r, orb_false_r. done.
  - unfold Application.page_loaded, leaves_loader at 1 3.
    destruct (kolibri_loaded self) eqn:Hflag; simpl.
    + specialize (IH self). simpl in IH. rewrite Hflag in IH. simpl in IH.
      destruct (Application.pages_loaded self urls) as [self' t]. exact IH.
    + destruct (String.eqb url (loader_url self)) eqn:Hurl; simpl.
      * specialize (IH self). simpl in IH. rewrite Hflag in IH. simpl in IH.
        destruct (Application.pages_loaded self urls) as [self' t]. exact IH.
      * rewrite pages_loaded_after by done. done.
Qed.

Lemma should_load_url_rooted (url : string) :
  PyStr.startswith url KOLIBRI_ROOT_URL = true ->
  Application.should_load_url url = (true, []).
Proof.
  intros Hroot. unfold Application.should_load_url.
  by rewrite Hroot, andb_false_r.
Qed.

(** X5: every [https] URL, the ones of [localhost:5000] among them, is
    refused and handed to the external browser: the root URL the view is
    kept to is the plain [http] one. *)
Theorem should_load_url_sends_https_out (rest : string) :
  Application.should_load_url ("https" +:+ rest)
  = (false, [WebbrowserOpen ("https" +:+ rest)]).
Proof. reflexivity. Qed.

Lemma landing_rooted (saved_state : gmap string string) :
  PyStr.startswith (landing saved_state) KOLIBRI_ROOT_URL = true.
Proof.
  unfold landing. destruct (saved_state !! "URL") as [url|]; [|done].
  by destruct (PyStr.startswith url KOLIBRI_ROOT_URL) eqn:Hurl.
Qed.

(** X6: whatever the server does and whatever view state was saved, a URL
    [wait_for_server] navigates to starts with the root URL and is one that
    [should_load_url] lets the view load without calling the browser. *)
Theorem wait_for_server_navigates_inside
    (server : nat -> probe) (saved_state : gmap string string) (fuel : nat)
    (how : loop_exit) (t : trace) (url : string) :
  Application.wait_for_server fuel server saved_state = Some (how, t) ->
  url ∈ loads t ->
  PyStr.startswith url KOLIBRI_ROOT_URL = true
  /\ Application.should_load_url url = (true, []).
Proof.
  unfold Application.wait_for_server, Application.wait_for_server_with.
  destruct (Application.wait_loop _ _ _ fuel server 0 _) as [[how0 t0]|] eqn:Hloop;
    [|done].
  destruct (wait_loop_no_navigation _ _ _ _ _ _ Hloop) as [Hloads _].
  assert (Hnav : loads (Application.navigate KOLIBRI_ROOT_URL saved_state)
                 = [landing saved_state]).
  { unfold Application.navigate, landing.
    destruct (saved_state !! "URL") as [u|]; [|done].
    by destruct (PyStr.startswith u KOLIBRI_ROOT_URL). }
  destruct how0; intros [= <- <-].
  - rewrite loads_app, Hloads, Hnav. intros ->%list_elem_of_singleton.
    split; [apply landing_rooted | apply should_load_url_rooted, landing_rooted].
  - rewrite Hloads. intros Hin. by apply elem_of_nil in Hin.
Qed.

Lemma wait_for_server_navigates_inside_witness :
  let saved_state : gmap string string := {["URL" := "https://example.org/"]} in
  let t := [Urlopen KOLIBRI_ROOT_URL; GetViewState; GetViewState;
            Log DEBUG "Persisted View State"; LoadUrl KOLIBRI_ROOT_URL] in
  Application.wait_for_server 1 (answers_at 0) saved_state = Some (ServerRunning, t)
  /\ KOLIBRI_ROOT_URL ∈ loads t
  /\ Application.should_load_url KOLIBRI_ROOT_URL = (true, []).
Proof.
  intros saved_state t.
  assert (H1 : Application.wait_for_server 1 (answers_at 0) saved_state
               = Some (ServerRunning, t)) by (vm_compute; reflexivity).
  assert (H2 : KOLIBRI_ROOT_URL ∈ loads t) by (apply list_elem_of_singleton; reflexivity).
  split; [exact H1|]. split; [exact H2|].
  apply (wait_for_server_navigates_inside _ _ _ _ _ _ H1 H2).
Defined.

(** X7: the state [setUp] leaves: one window, the main view, shown; the
    flag unset; and a loader URL that [should_load_url] accepts and whose
    own page load clears no history. *)
Theorem setUp_loader_url_is_loadable
    (abspath : string -> string) (path_exists : string -> bool)
    (locale : gmap string string) (a : app) (t : trace) :
  Application.setUp abspath path_exists locale = inr (a, t) ->
  t = [ShowWindow (view a)]
  /\ windows a = [view a]
  /\ kolibri_loaded a = false
  /\ Application.should_load_url (loader_url a) = (true, [])
  /\ Application.page_loaded a (loader_url a) = (a, []).
Proof.
  unfold Application.setUp. destruct (locale !! "language") as [lang_id|]; [|done].
  intros [= <- <-]. simpl. repeat split.
  unfold Application.page_loaded. simpl. by rewrite String.eqb_refl.
Qed.

Lemma setUp_loader_url_is_loadable_witness :
  let locale : gmap string string := {["language" := "fr-FR"]} in
  let a := {| loader_url := "file:///app/assets/_load-fr.html";
              kolibri_loaded := false; view := 0; windows := [0];
              next_window := 1 |} in
  Application.setUp app_abspath (assets_for ["fr"; "en_US"]) locale
  = inr (a, [ShowWindow 0])
  /\ Application.should_load_url (loader_url a) = (true, []).
Proof.
  intros locale a.
  assert (H1 : Application.setUp app_abspath (assets_for ["fr"; "en_US"]) locale
               = inr (a, [ShowWindow 0])) by (vm_compute; reflexivity).
  split; [exact H1|].
  apply (setUp_loader_url_is_loadable _ _ _ _ _ H1).
Defined.

(** X8: with the English page in place, the page [setUp] settles on exists
    for every language tag, and it is the page of the tag itself whenever
    that one exists. *)
Theorem loader_page_exists_with_default
    (abspath : string -> string) (path_exists : string -> bool) (lang_id : string) :
  path_exists (Application.loader_asset abspath "en_US") = true ->
  path_exists (Application.resolve_loader_page abspath path_exists lang_id) = true
  /\ (if path_exists (Application.loader_asset abspath lang_id)
      then Application.resolve_loader_page abspath path_exists lang_id
           = Application.loader_asset abspath lang_id
      else Application.resolve_loader_page abspath path_exists lang_id
           ∈ [Application.loader_asset abspath (PyStr.split_head "-" lang_id);
              Application.loader_asset abspath "en_US"]).
Proof.
  intros Hdefault. split; [by apply resolve_loader_page_exists|].
  rewrite resolve_loader_page_chain.
  destruct (path_exists (Application.loader_asset abspath lang_id)); [done|].
  destruct (path_exists (Application.loader_asset abspath (PyStr.split_head "-" lang_id)));
    [left | right; left].
Qed.

Lemma loader_page_exists_with_default_witness :
  assets_for ["de"; "en_US"] (Application.loader_asset app_abspath "en_US") = true
  /\ assets_for ["de"; "en_US"]
       (Application.resolve_loader_page app_abspath (assets_for ["de"; "en_US"]) "de-AT")
     = true.
Proof.
  assert (H1 : assets_for ["de"; "en_US"] (Application.loader_asset app_abspath "en_US")
               = true) by reflexivity.
  split; [exact H1|].
  apply (loader_page_exists_with_default app_abspath _ "de-AT" H1).
Defined.

(** X9: when reading the message catalogs raises, the start-up goes on with
    the locale [en_US] and [setUp] shows the English loading page, whether
    or not that page exists: all three tries of the chain are the same
    page. *)
Theorem raised_translation_shows_english_page
    (abspath : string -> string) (path_exists : string -> bool)
    (found : list Gettext.mofile) (err : exn) :
  Gettext.translation found true = inl err ->
  (locale_info found).1 !! "language" = Some "en_US"
  /\ Log WARNING "Error retrieving language" ∈ (locale_info found).2
  /\ exists a,
       Application.setUp abspath path_exists (locale_info found).1
       = inr (a, [ShowWindow (view a)])
       /\ loader_url a = "file://" +:+ Application.loader_asset abspath "en_US".
Proof.
  intros Hraise. unfold locale_info. rewrite Hraise. simpl.
  split; [by rewrite lookup_insert_eq|]. split; [left|].
  assert (Hpage : Application.resolve_loader_page abspath path_exists "en_US"
                  = Application.loader_asset abspath "en_US").
  { rewrite resolve_loader_page_underscore by reflexivity.
    by destruct (path_exists _). }
  exists {| loader_url := "file://" +:+ Application.loader_asset abspath "en_US";
            kolibri_loaded := false; view := 0; windows := [0]; next_window := 1 |}.
  unfold Application.setUp. rewrite lookup_insert_eq, Hpage. done.
Qed.

Lemma raised_translation_shows_english_page_witness :
  Gettext.translation [Gettext.Unreadable "Bad magic number"] true
  = inl (OSError "Bad magic number")
  /\ (locale_info [Gettext.Unreadable "Bad magic number"]).1 !! "language"
     = Some "en_US".
Proof.
  assert (H1 : Gettext.translation [Gettext.Unreadable "Bad magic number"] true
               = inl (OSError "Bad magic number")) by reflexivity.
  split; [exact H1|].
  apply (raised_translation_shows_english_page app_abspath (assets_for []) _ _ H1).
Defined.

End PagesMore.

(** ** The window list over whole histories *)

Section WindowsMore.

Implicit Types (l : list nat) (a : app) (history events : list window_event).

Lemma closed_windows_app history events :
  closed_windows (history ++ events) = closed_windows history ++ closed_windows events.
Proof. apply flat_map_app. Qed.

Lemma opened_count_app history events :
  opened_count (history ++ events) = opened_count history + opened_count events.
Proof. unfold opened_count. by rewrite List.filter_app, length_app. Qed.

Lemma elem_of_closed_windows w history :
  w ∈ closed_windows history <-> CloseWindow w ∈ history.
Proof.
  induction history as [|e history IH]; simpl.
  - split; intros H; by apply elem_of_nil in H.
  - rewrite elem_of_app, elem_of_cons, IH. destruct e as [|w']; simpl.
    + split; [intros [H|H]; [by apply elem_of_nil in H | by right]
             | intros [H|H]; [done | by right]].
    + rewrite list_elem_of_singleton. split; intros [H|H]; auto; left; congruence.
Qed.

Lemma list_remove_raises x l :
  x ∉ l -> list_remove x l = inl (ValueError "list.remove(x): x not in list").
Proof.
  induction l as [|y l IH]; intros Hx; [done|]. simpl.
  apply not_elem_of_cons in Hx as [Hne Hx].
  destruct (Nat.eqb_spec y x) as [->|_]; [done|]. by rewrite IH.
Qed.

Lemma list_remove_last x l : x ∉ l -> list_remove x (l ++ [x]) = inr l.
Proof.
  induction l as [|y l IH]; intros Hx; simpl.
  - by rewrite Nat.eqb_refl.
  - apply not_elem_of_cons in Hx as [Hne Hx].
    destruct (Nat.eqb_spec y x) as [->|_]; [done|]. by rewrite IH.
Qed.

Lemma run_app a history events :
  run a (history ++ events)
  = match run a history with
    | inl err => inl err
    | inr (a1, t1) =>
        match run a1 events with
        | inl err => inl err
        | inr (a2, t2) => inr (a2, t1 ++ t2)
        end
    end.
Proof.
  revert a. induction history as [|e history IH]; intros a; simpl.
  - by destruct (run a events) as [err|[a2 t2]].
  - destruct (react a e) as [err|[a1 t1]]; [done|]. rewrite IH.
    destruct (run a1 history) as [err|[a2 t2]]; [done|].
    destruct (run a2 events) as [err|[a3 t3]]; [done|]. by rewrite app_assoc.
Qed.

(** The counts kept along a history. *)
Lemma react_counts a history e a' t :
  tracks a history ->
  NoDup (closed_windows history) ->
  length (windows a) + length (closed_windows history) = S (opened_count history) ->
  react a e = inr (a', t) ->
  NoDup (closed_windows (history ++ [e]))
  /\ length (windows a') + length (closed_windows (history ++ [e]))
     = S (opened_count (history ++ [e])).
Proof.
  intros (Hnd & Hopen & _ & _) Hclosed Hcount.
  rewrite closed_windows_app, opened_count_app. destruct e as [|w]; simpl.
  - intros [= <- _]. simpl. rewrite app_nil_r, length_app. simpl.
    split; [done|]. unfold opened_count in *. simpl. lia.
  - unfold KolibriView.shutdown.
    destruct (list_remove w (windows a)) as [e|remaining] eqn:Hrem; [done|].
    pose proof (list_remove_present _ _ _ Hrem) as Hw.
    destruct (list_remove_filter w (windows a) Hnd Hw) as [Hfilter Hlen].
    rewrite Hrem in Hfilter. injection Hfilter as ->.
    intros Ha'.
    assert (Hwin : windows a' = filter (fun y => y ≠ w) (windows a)).
    { destruct (0 <? length _); by injection Ha' as <- _. }
    rewrite Hwin, length_app. simpl. split.
    + apply NoDup_app. split; [done|]. split; [|apply NoDup_singleton].
      intros y Hy Hin. apply list_elem_of_singleton in Hin as ->.
      apply elem_of_closed_windows in Hy. apply Hopen in Hw as [_ Hno]. done.
    + unfold opened_count in *. simpl. lia.
Qed.

Lemma run_counts events : forall a history a' t,
  tracks a history ->
  NoDup (closed_windows history) ->
  length (windows a) + length (closed_windows history) = S (opened_count history) ->
  run a events = inr (a', t) ->
  NoDup (closed_windows (history ++ events))
  /\ length (windows a') + length (closed_windows (history ++ events))
     = S (opened_count (history ++ events)).
Proof.
  induction events as [|e events IH]; intros a history a' t Htr Hnd Hcount; simpl.
  - intros [= <- _]. by rewrite app_nil_r.
  - destruct (react a e) as [err|[a1 t1]] eqn:Hreact; [done|].
    destruct (run a1 events) as [err|[a2 t2]] eqn:Hrun; [done|].
    intros [= <- _].
    replace (history ++ e :: events) with ((history ++ [e]) ++ events)
      by by rewrite <- app_assoc.
    destruct (react_counts _ _ _ _ _ Htr Hnd Hcount Hreact) as [Hnd' Hcount'].
    eapply IH; [|done|done|exact Hrun]. by eapply react_tracks.
Qed.

(** X10: along any history the application gets through after [setUp], no
    window is closed twice, and the length of the window list is the
    number of windows opened, the first one included, less the number
    closed. *)
Theorem windows_count_opened_less_closed
    (abspath : string -> string) (path_exists : string -> bool)
    (locale : gmap string string) (a0 : app) (t0 : trace)
    (events : list window_event) (a : app) (t : trace) :
  Application.setUp abspath path_exists locale = inr (a0, t0) ->
  run a0 events = inr (a, t) ->
  NoDup (closed_windows events)
  /\ length (windows a) + length (closed_windows events) = S (opened_count events).
Proof.
  intros Hsetup Hrun.
  pose proof (setUp_tracks _ _ _ _ _ Hsetup) as Htr.
  apply (run_counts events a0 [] a t Htr); [apply NoDup_nil_2| |exact Hrun].
  unfold Application.setUp in Hsetup.
  destruct (locale !! "language"); [|done]. by injection Hsetup as <- _.
Qed.

Lemma windows_count_opened_less_closed_witness :
  let locale : gmap string string := {["language" := "en_US"]} in
  let a0 := {| loader_url := "file:///app/assets/_load-en_US.html";
               kolibri_loaded := false; view := 0; windows := [0];
               next_window := 1 |} in
  let a := {| loader_url := "file:///app/assets/_load-en_US.html";
              kolibri_loaded := false; view := 0; windows := [2];
              next_window := 3 |} in
  let events := [NewWindow; CloseWindow 0; NewWindow; CloseWindow 1] in
  Application.setUp app_abspath (assets_for ["en_US"]) locale = inr (a0, [ShowWindow 0])
  /\ run a0 events = inr (a, [ShowWindow 1; ShowWindow 2])
  /\ length (windows a) + length (closed_windows events) = S (opened_count events).
Proof.
  intros locale a0 a events.
  assert (H1 : Application.setUp app_abspath (assets_for ["en_US"]) locale
               = inr (a0, [ShowWindow 0])) by (vm_compute; reflexivity).
  assert (H2 : run a0 events = inr (a, [ShowWindow 1; ShowWindow 2]))
    by (vm_compute; reflexivity).
  split; [exact H1|]. split; [exact H2|].
  apply (windows_count_opened_less_closed _ _ _ _ _ _ _ _ H1 H2).
Defined.

(** X11: closing a window that is not in the list, one closed before or one
    never opened, raises the [ValueError] of [list.remove]: the history
    stops there, before the toolkit's shutdown is reached. *)
Theorem closing_absent_window_raises
    (abspath : string -> string) (path_exists : string -> bool)
    (locale : gmap string string) (a0 : app) (t0 : trace)
    (events : list window_event) (a : app) (t : trace) (w : nat) :
  Application.setUp abspath path_exists locale = inr (a0, t0) ->
  run a0 events = inr (a, t) ->
  CloseWindow w ∈ events \/ next_window a <= w ->
  KolibriView.shutdown w (Some a) = inl (ValueError "list.remove(x): x not in list")
  /\ run a0 (events ++ [CloseWindow w])
     = inl (ValueError "list.remove(x): x not in list").
Proof.
  intros Hsetup Hrun Hw.
  pose proof (run_tracks events a0 [] a t (setUp_tracks _ _ _ _ _ Hsetup) Hrun)
    as (_ & Hopen & _ & _).
  simpl in Hopen.
  assert (Hout : w ∉ windows a).
  { intros [Hlt Hno]%Hopen. destruct Hw as [Hin|Hge]; [done | lia]. }
  assert (Hshut : KolibriView.shutdown w (Some a)
                  = inl (ValueError "list.remove(x): x not in list")).
  { unfold KolibriView.shutdown. by rewrite (list_remove_raises _ _ Hout). }
  split; [exact Hshut|].
  rewrite run_app, Hrun. unfold run, react. by rewrite Hshut.
Qed.

Lemma closing_absent_window_raises_witness :
  let locale : gmap string string := {["language" := "en_US"]} in
  let a0 := {| loader_url := "file:///app/assets/_load-en_US.html";
               kolibri_loaded := false; view := 0; windows := [0];
               next_window := 1 |} in
  let a := {| loader_url := "file:///app/assets/_load-en_US.html";
              kolibri_loaded := false; view := 0; windows := [1];
              next_window := 2 |} in
  let events := [NewWindow; CloseWindow 0] in
  Application.setUp app_abspath (assets_for ["en_US"]) locale = inr (a0, [ShowWindow 0])
  /\ run a0 events = inr (a, [ShowWindow 1])
  /\ (CloseWindow 0 ∈ events \/ next_window a <= 0)
  /\ run a0 (events ++ [CloseWindow 0])
     = inl (ValueError "list.remove(x): x not in list").
Proof.
  intros locale a0 a events.
  assert (H1 : Application.setUp app_abspath (assets_for ["en_US"]) locale
               = inr (a0, [ShowWindow 0])) by (vm_compute; reflexivity).
  assert (H2 : run a0 events = inr (a, [ShowWindow 1])) by (vm_compute; reflexivity).
  assert (H3 : CloseWindow 0 ∈ events \/ next_window a <= 0)
    by (left; right; left).
  split; [exact H1|]. split; [exact H2|]. split; [exact H3|].
  apply (closing_absent_window_raises _ _ _ _ _ _ _ _ 0 H1 H2 H3).
Defined.

(** X12: opening a window and closing it again gives the window list back
    as it was; the toolkit's shutdown runs at that close only when the list
    was empty before. *)
Theorem new_window_then_close_restores_list
    (abspath : string -> string) (path_exists : string -> bool)
    (locale : gmap string string) (a0 : app) (t0 : trace)
    (events : list window_event) (a : app) (t : trace) :
  Application.setUp abspath path_exists locale = inr (a0, t0) ->
  run a0 events = inr (a, t) ->
  exists a',
    run a [NewWindow; CloseWindow (next_window a)]
    = inr (a', ShowWindow (next_window a)
               :: (if decide (windows a = []) then [SuperShutdown] else []))
    /\ windows a' = windows a
    /\ next_window a' = S (next_window a).
Proof.
  intros Hsetup Hrun.
  pose proof (run_tracks events a0 [] a t (setUp_tracks _ _ _ _ _ Hsetup) Hrun)
    as (_ & Hopen & _ & _).
  assert (Hfresh : next_window a ∉ windows a).
  { intros [Hlt _]%Hopen. lia. }
  exists {| loader_url := loader_url a; kolibri_loaded := kolibri_loaded a;
            view := view a; windows := windows a;
            next_window := S (next_window a) |}.
  simpl. unfold KolibriView.shutdown. simpl.
  rewrite (list_remove_last _ _ Hfresh).
  destruct (windows a) as [|y l]; done.
Qed.

Lemma new_window_then_close_restores_list_witness :
  let locale : gmap string string := {["language" := "en_US"]} in
  let a0 := {| loader_url := "file:///app/assets/_load-en_US.html";
               kolibri_loaded := false; view := 0; windows := [0];
               next_window := 1 |} in
  Application.setUp app_abspath (assets_for ["en_US"]) locale = inr (a0, [ShowWindow 0])
  /\ run a0 [] = inr (a0, [])
  /\ exists a', run a0 [NewWindow; CloseWindow 1] = inr (a', [ShowWindow 1])
                /\ windows a' = [0].
Proof.
  intros locale a0.
  assert (H1 : Application.setUp app_abspath (assets_for ["en_US"]) locale
               = inr (a0, [ShowWindow 0])) by (vm_compute; reflexivity).
  assert (H2 : run a0 [] = inr (a0, [])) by reflexivity.
  split; [exact H1|]. split; [exact H2|].
  destruct (new_window_then_close_restores_list _ _ _ _ _ _ _ _ H1 H2)
    as (a' & Hrun & Hwin & _).
  exists a'. split; [exact Hrun | exact Hwin].
Defined.

End WindowsMore.

Section ShutdownOverHistories.

Implicit Types (a : app) (events : list window_event).

Lemma shutdowns_app t t' : shutdowns (t ++ t') = shutdowns t + shutdowns t'.
Proof. unfold shutdowns. by rewrite List.filter_app, length_app. Qed.

(** One event runs the toolkit's shutdown when it leaves the list empty. *)
Lemma react_shutdowns a e a' t :
  react a e = inr (a', t) ->
  shutdowns t = if decide (windows a' = []) then 1 else 0.
Proof.
  destruct e as [|w]; simpl.
  - intros [= <- <-]. simpl. by destruct (windows a).
  - unfold KolibriView.shutdown.
    destruct (list_remove w (windows a)) as [err|remaining]; [done|].
    destruct remaining as [|y l]; simpl; by intros [= <- <-].
Qed.

(** X13: over a whole history of window events, the toolkit's shutdown is
    never run exactly when the window list is non-empty after every event of
    the history. *)
Theorem shutdown_only_when_list_empties events : forall a a' t,
  run a events = inr (a', t) ->
  shutdowns t = 0
  <-> (forall before after a1 t1,
         events = before ++ after -> before <> [] ->
         run a before = inr (a1, t1) -> windows a1 <> []).
Proof.
  induction events as [|e events IH]; intros a a' t; simpl.
  - intros [= <- <-]. split; [|done].
    intros _ before after a1 t1 Heq Hne. by destruct before.
  - destruct (react a e) as [err|[a1 t1]] eqn:Hreact; [done|].
    destruct (run a1 events) as [err|[a2 t2]] eqn:Hrun; [done|].
    intros [= <- <-]. rewrite shutdowns_app.
    pose proof (react_shutdowns _ _ _ _ Hreact) as Hstep.
    specialize (IH a1 a2 t2 Hrun). split.
    + intros Hzero before after a3 t3 Heq Hne Hbefore.
      destruct before as [|e' before]; [done|]. injection Heq as <- Heq.
      simpl in Hbefore. rewrite Hreact in Hbefore.
      destruct (run a1 before) as [err|[a4 t4]] eqn:Hrest; [done|].
      injection Hbefore as <- _.
      destruct before as [|e'' before].
      * injection Hrest as <- _. intros Hempty.
        destruct (decide (windows a1 = [])); [lia | done].
      * destruct IH as [IH _]. eapply (IH ltac:(lia)); [exact Heq|done|exact Hrest].
    + intros Hall.
      assert (shutdowns t1 = 0) as ->.
      { rewrite Hstep. destruct (decide (windows a1 = [])) as [Hempty|_]; [|done].
        exfalso. apply (Hall [e] events a1 (t1 ++ [])); [done|done| |done].
        simpl. by rewrite Hreact. }
      simpl. apply IH. intros before after a3 t3 Heq Hne Hbefore.
      apply (Hall (e :: before) after a3 (t1 ++ t3)); [by rewrite Heq|done|].
      simpl. by rewrite Hreact, Hbefore.
Qed.

Lemma shutdown_only_when_list_empties_witness :
  let a0 := {| loader_url := "file:///app/assets/_load-en_US.html";
               kolibri_loaded := false; view := 0; windows := [0];
               next_window := 1 |} in
  let a := {| loader_url := "file:///app/assets/_load-en_US.html";
              kolibri_loaded := false; view := 0; windows := [1];
              next_window := 2 |} in
  run a0 [NewWindow; CloseWindow 0] = inr (a, [ShowWindow 1])
  /\ (shutdowns [ShowWindow 1] = 0
      <-> (forall before after a1 t1,
             [NewWindow; CloseWindow 0] = before ++ after -> before <> [] ->
             run a0 before = inr (a1, t1) -> windows a1 <> [])).
Proof.
  intros a0 a.
  assert (H1 : run a0 [NewWindow; CloseWindow 0] = inr (a, [ShowWindow 1]))
    by (vm_compute; reflexivity).
  split; [exact H1|].
  apply (shutdown_only_when_list_empties _ _ _ _ H1).
Defined.

End ShutdownOverHistories.

(** ** The start-up code: environment and languages *)

Section StartUp.

Implicit Types (environ : gmap string string) (s lang : string) (c d : ascii).

(** X14: after the environment block [KOLIBRI_HOME] is always set, so the
    path of the log file is built without a [KeyError]: on Android it is the
    platform's folder, elsewhere the value already in the environment, and
    [.kolibri] under the user's home only when there was none.
    [DJANGO_SETTINGS_MODULE] is set, [TZ] is touched on Android only, and
    every other variable is left alone. *)
Theorem prepare_environ_sets_home
    (pew_platform home_folder timezone user_home : string) environ :
  let after := prepare_environ pew_platform home_folder timezone user_home environ in
  let home := if String.eqb pew_platform "android" then home_folder
              else default (OsPath.join user_home ".kolibri")
                           (environ !! "KOLIBRI_HOME") in
  after !! "KOLIBRI_HOME" = Some home
  /\ log_filename after
     = inr (OsPath.join (OsPath.join home "logs") "kolibri-app.txt")
  /\ after !! "DJANGO_SETTINGS_MODULE"
     = Some "kolibri.deployment.default.settings.base"
  /\ after !! "TZ"
     = (if String.eqb pew_platform "android" then Some timezone else environ !! "TZ")
  /\ delete "TZ" (delete "KOLIBRI_HOME" (delete "DJANGO_SETTINGS_MODULE" after))
     = delete "TZ" (delete "KOLIBRI_HOME" (delete "DJANGO_SETTINGS_MODULE" environ)).
Proof.
  intros after home. subst after home. unfold log_filename, prepare_environ.
  destruct (String.eqb pew_platform "android").
  - repeat split; try by simplify_map_eq.
    apply map_eq. intros k.
    destruct (decide (k = "TZ")) as [->|?]; [by simplify_map_eq|].
    destruct (decide (k = "KOLIBRI_HOME")) as [->|?]; [by simplify_map_eq|].
    destruct (decide (k = "DJANGO_SETTINGS_MODULE")) as [->|?]; by simplify_map_eq.
  - rewrite lookup_insert_ne by done.
    destruct (environ !! "KOLIBRI_HOME") as [h|] eqn:Hhome; simpl.
    + repeat split; try by simplify_map_eq.
      apply map_eq. intros k.
      destruct (decide (k = "TZ")) as [->|?]; [by simplify_map_eq|].
      destruct (decide (k = "KOLIBRI_HOME")) as [->|?]; [by simplify_map_eq|].
      destruct (decide (k = "DJANGO_SETTINGS_MODULE")) as [->|?]; by simplify_map_eq.
    + repeat split; try by simplify_map_eq.
      apply map_eq. intros k.
      destruct (decide (k = "TZ")) as [->|?]; [by simplify_map_eq|].
      destruct (decide (k = "KOLIBRI_HOME")) as [->|?]; [by simplify_map_eq|].
      destruct (decide (k = "DJANGO_SETTINGS_MODULE")) as [->|?]; by simplify_map_eq.
Qed.

Lemma contains_one_char s c : PyStr.contains s (String c "") = PyStr.has_char c s.
Proof.
  induction s as [|b s IH]; [done|]. simpl. rewrite IH.
  rewrite (Ascii.eqb_sym c b). by destruct (Ascii.eqb b c).
Qed.

Lemma remove_gone c s : PyStr.has_char c (PyStr.remove c s) = false.
Proof.
  induction s as [|b s IH]; [done|]. simpl.
  destruct (Ascii.eqb b c) eqn:Hb; [done|]. simpl. by rewrite Hb.
Qed.

Lemma replace_gone c d s : c <> d -> PyStr.has_char c (PyStr.replace c d s) = false.
Proof.
  intros Hne. induction s as [|b s IH]; [done|]. simpl. rewrite IH, orb_false_r.
  destruct (Ascii.eqb b c) eqn:Hb; [|done].
  apply Ascii.eqb_neq. congruence.
Qed.

Lemma replace_keeps_out c d e s :
  e <> d -> PyStr.has_char e s = false -> PyStr.has_char e (PyStr.replace c d s) = false.
Proof.
  intros Hne. induction s as [|b s IH]; [done|]. simpl.
  intros [Hb Hs]%orb_false_elim. rewrite (IH Hs), orb_false_r.
  destruct (Ascii.eqb b c); [|done]. apply Ascii.eqb_neq. congruence.
Qed.

Lemma split_head_keeps_out c d s :
  PyStr.has_char d s = false -> PyStr.has_char d (PyStr.split_head c s) = false.
Proof.
  induction s as [|b s IH]; [done|]. simpl.
  intros [Hb Hs]%orb_false_elim. destruct (Ascii.eqb b c); [done|].
  simpl. by rewrite Hb, IH.
Qed.

Lemma split_head_gone c s : PyStr.has_char c (PyStr.split_head c s) = false.
Proof.
  induction s as [|b s IH]; [done|]. simpl.
  destruct (Ascii.eqb b c) eqn:Hb; [done|]. simpl. by rewrite Hb.
Qed.

Lemma split_gone c s : Forall (fun piece => PyStr.has_char c piece = false) (PyStr.split c s).
Proof.
  induction s as [|b s IH]; simpl; [by repeat constructor|].
  destruct (Ascii.eqb b c) eqn:Hb; [by constructor|].
  destruct (PyStr.split c s) as [|piece rest]; [by repeat constructor; simpl; rewrite Hb|].
  apply Forall_cons in IH as [Hpiece Hrest]. constructor; [|done].
  simpl. by rewrite Hb.
Qed.

Lemma split_keeps_out c d s :
  PyStr.has_char d s = false ->
  Forall (fun piece => PyStr.has_char d piece = false) (PyStr.split c s).
Proof.
  induction s as [|b s IH]; simpl; [by repeat constructor|].
  intros [Hb Hs]%orb_false_elim. specialize (IH Hs).
  destruct (Ascii.eqb b c); [by constructor|].
  destruct (PyStr.split c s) as [|piece rest]; [by repeat constructor; simpl; rewrite Hb|].
  apply Forall_cons in IH as [Hpiece Hrest]. constructor; [|done].
  simpl. by rewrite Hb.
Qed.

(** [split_head] is the first piece of [split]. *)
Lemma split_head_first c s : head (PyStr.split c s) = Some (PyStr.split_head c s).
Proof.
  induction s as [|b s IH]; [done|]. simpl.
  destruct (Ascii.eqb b c); [done|].
  destruct (PyStr.split c s) as [|piece rest]; [done|].
  simpl in *. by injection IH as ->.
Qed.

Lemma detect_languages_loop (locale_root_dir : string) (path_exists : string -> bool)
    (preferences : list string) : forall languages,
  fold_left
    (fun languages lang =>
       if path_exists (OsPath.join locale_root_dir lang) then languages ++ [lang]
       else if PyStr.contains lang "_" then languages ++ [PyStr.split_head "_" lang]
       else languages)
    preferences languages
  = languages ++ omap (language_for locale_root_dir path_exists) preferences.
Proof.
  induction preferences as [|lang preferences IH]; intros languages; simpl.
  - by rewrite app_nil_r.
  - rewrite IH. unfold language_for at 2. rewrite (contains_one_char lang "_").
    destruct (path_exists _); [by rewrite <- app_assoc|].
    destruct (PyStr.has_char "_" lang); [by rewrite <- app_assoc|done].
Qed.

Lemma omap_shorter {A B} (f : A -> option B) (l : list A) :
  length (omap f l) <= length l.
Proof.
  induction l as [|x l IH]; [done|]. csimpl. destruct (f x); simpl; lia.
Qed.

(** X15: the languages detected on macOS are, in the order of the user's
    preferences, what [language_for] makes of each; none of them holds a
    hyphen, a double quote or a comma, and each either names a locale
    directory that exists or has no underscore; there are at most as many
    as preferences. *)
Theorem detect_languages_normalised
    (locale_root_dir : string) (path_exists : string -> bool) (langs_str : string) :
  detect_languages locale_root_dir path_exists langs_str
  = omap (language_for locale_root_dir path_exists) (languages_base langs_str)
  /\ Forall (fun lang =>
               PyStr.has_char "-" lang = false
               /\ PyStr.has_char double_quote lang = false
               /\ PyStr.has_char "," lang = false
               /\ (path_exists (OsPath.join locale_root_dir lang) = true
                   \/ PyStr.has_char "_" lang = false))
            (detect_languages locale_root_dir path_exists langs_str)
  /\ length (detect_languages locale_root_dir path_exists langs_str)
     <= length (languages_base langs_str).
Proof.
  assert (Hloop : detect_languages locale_root_dir path_exists langs_str
                  = omap (language_for locale_root_dir path_exists)
                         (languages_base langs_str)).
  { unfold detect_languages. by rewrite detect_languages_loop. }
  rewrite Hloop. split; [done|]. split; [|apply omap_shorter].
  unfold languages_base.
  set (cleaned := PyStr.replace "-" "_" (PyStr.remove double_quote _)).
  assert (Hhyphen : PyStr.has_char "-" cleaned = false)
    by (apply replace_gone; discriminate).
  assert (Hquote : PyStr.has_char double_quote cleaned = false)
    by (apply replace_keeps_out; [discriminate | apply remove_gone]).
  pose proof (split_keeps_out "," _ _ Hhyphen) as H1.
  pose proof (split_keeps_out "," _ _ Hquote) as H2.
  pose proof (split_gone "," cleaned) as H3.
  induction (PyStr.split "," cleaned) as [|lang pieces IH]; [constructor|].
  apply Forall_cons in H1 as [Hl1 H1]. apply Forall_cons in H2 as [Hl2 H2].
  apply Forall_cons in H3 as [Hl3 H3]. specialize (IH H1 H2 H3).
  simpl. unfold language_for at 1.
  destruct (path_exists (OsPath.join locale_root_dir lang)) eqn:Hdir; simpl.
  - constructor; [|done]. repeat split; try done. by left.
  - destruct (PyStr.has_char "_" lang); simpl; [|done].
    constructor; [|done].
    split; [by apply split_head_keeps_out|].
    split; [by apply split_head_keeps_out|].
    split; [by apply split_head_keeps_out|].
    right. apply split_head_gone.
Qed.

End StartUp.

(** ** The packaging helper over whole trees *)

Section PackagingHelperMore.

Variable std_lib : string.

(** X16: [generate_stdlib_imports] writes one file, [src/stdlib_imports.py]
    beside the tools directory, and its text is the statements of the files
    kept, joined in the order the walk visits them: a file is kept when its
    name ends in [.py] and no entry of the exclusion list occurs in its
    dotted module path. There are as many statements as files kept. *)
Theorem generate_stdlib_imports_writes_kept (tools_dir : string)
    (walk : list StdlibTool.walk_entry) :
  StdlibTool.generate_stdlib_imports tools_dir std_lib walk
  = [WriteFile
       (OsPath.join (OsPath.join (OsPath.join tools_dir "..") "src") "stdlib_imports.py")
       (PyStr.join (statements std_lib walk))]
  /\ length (statements std_lib walk)
     = length (List.filter (kept std_lib) (walked_files walk)).
Proof.
  unfold StdlibTool.generate_stdlib_imports. rewrite build_script_statements.
  split; [done|]. unfold statements. apply length_map.
Qed.

(** X17: the script of a walk is the script of its first part followed by
    that of the rest, the empty walk gives the empty script, and the
    directory names of an entry play no part. *)
Theorem build_script_composes (walk walk' : list StdlibTool.walk_entry)
    (top : string) (dirs files : list string) :
  StdlibTool.build_script std_lib (walk ++ walk')
  = StdlibTool.build_script std_lib walk +:+ StdlibTool.build_script std_lib walk'
  /\ StdlibTool.build_script std_lib [] = ""
  /\ StdlibTool.build_script std_lib [(top, dirs, files)]
     = StdlibTool.build_script std_lib [(top, [], files)].
Proof.
  rewrite !build_script_statements. split; [|done].
  unfold statements, walked_files.
  by rewrite flat_map_app, List.filter_app, map_app, join_app.
Qed.

(** X18: an exclusion entry that occurs anywhere in the dotted module path
    of a file drops the file, whatever comes before or after it in the
    path: the script is left as it was. *)
Theorem visit_file_skips_on_substring (top script nm entry : string) :
  In entry StdlibTool.excludes ->
  PyStr.contains (StdlibTool.module_path std_lib top nm) entry = true ->
  StdlibTool.visit_file std_lib top script nm = script.
Proof.
  intros Hin Hsub. unfold StdlibTool.visit_file. rewrite excluded_existsb.
  assert (existsb (PyStr.contains (StdlibTool.module_path std_lib top nm))
                  StdlibTool.excludes = true) as ->.
  { apply existsb_exists. eauto. }
  by rewrite andb_false_r.
Qed.

End PackagingHelperMore.

Lemma visit_file_skips_on_substring_witness :
  In "test" StdlibTool.excludes
  /\ PyStr.contains
       (StdlibTool.module_path "/usr/lib/python3.6" "/usr/lib/python3.6" "doctest.py")
       "test" = true
  /\ StdlibTool.visit_file "/usr/lib/python3.6" "/usr/lib/python3.6" "" "doctest.py" = "".
Proof.
  assert (H1 : In "test" StdlibTool.excludes) by (right; left; reflexivity).
  assert (H2 : PyStr.contains
                 (StdlibTool.module_path "/usr/lib/python3.6" "/usr/lib/python3.6"
                    "doctest.py") "test" = true) by reflexivity.
  split; [exact H1|]. split; [exact H2|].
  apply (visit_file_skips_on_substring "/usr/lib/python3.6" "/usr/lib/python3.6" ""
           "doctest.py" "test" H1 H2).
Defined.

(** ** The readiness poller against any server *)

Section PollerMore.

Local Abbreviation wait_loop := (Application.wait_loop KOLIBRI_ROOT_URL 20 3).
Local Abbreviation running := (Application.running KOLIBRI_ROOT_URL).





End PollerMore.

(** ** The poller's loop for any timeout and retry cap *)

Section PollerAnyBudget.

Variable home_url : string.
Variable timeout max_retries : nat.
Variable server : nat -> probe.
Hypothesis server_silent : forall n, (Application.running home_url (server n)).1 = false.

Local Abbreviation wait_loop := (Application.wait_loop home_url timeout max_retries).
Local Abbreviation loop_body := (Application.loop_body timeout max_retries).

Lemma requests_app t t' : requests (t ++ t') = requests t + requests t'.
Proof. unfold requests. by rewrite List.filter_app, length_app. Qed.

Lemma running_one_request p :
  requests (Application.running home_url p).2 = 1
  /\ signals (Application.running home_url p).2 = []
  /\ loads (Application.running home_url p).2 = [].
Proof. by destruct p. Qed.

(** An unanswered check leads into the loop body. *)
Lemma wait_loop_unanswered fuel attempt c :
  wait_loop (S fuel) server attempt c
  = match loop_body c with
    | (Return_, t') =>
        Some (GaveUp, (Application.running home_url (server attempt)).2 ++ t')
    | (Continue c', t') =>
        match wait_loop fuel server (S attempt) c' with
        | Some (how, rest) =>
            Some (how, (Application.running home_url (server attempt)).2 ++ t' ++ rest)
        | None => None
        end
    end.
Proof.
  simpl. pose proof (server_silent attempt) as Hno.
  destruct (Application.running home_url (server attempt)) as [up t].
  simpl in Hno. by subst up.
Qed.

Lemma loop_body_in_period c :
  time_spent c + 1 <= timeout ->
  loop_body c = (Continue {| time_spent := time_spent c + 1;
                             load_retries := load_retries c |}, waited).
Proof.
  intros Hin. unfold Application.loop_body.
  by destruct (Nat.ltb_spec timeout (time_spent c + 1)); [lia|].
Qed.

Lemma loop_body_retry c :
  timeout < time_spent c + 1 -> load_retries c < max_retries ->
  loop_body c = (Continue {| time_spent := 0; load_retries := load_retries c + 1 |},
                 waited ++ [Log WARNING "Kolibri server not starting, retrying...";
                            EvaluateJavascript "show_retry()"]).
Proof.
  intros Hout Hmore. unfold Application.loop_body.
  destruct (Nat.ltb_spec timeout (time_spent c + 1)); [|lia].
  by destruct (Nat.ltb_spec (load_retries c) max_retries); [|lia].
Qed.

Lemma loop_body_error c :
  timeout < time_spent c + 1 -> max_retries <= load_retries c ->
  loop_body c = (Return_, waited ++ [EvaluateJavascript "show_error()"]).
Proof.
  intros Hout Hcap. unfold Application.loop_body.
  destruct (Nat.ltb_spec timeout (time_spent c + 1)); [|lia].
  by destruct (Nat.ltb_spec (load_retries c) max_retries); [lia|].
Qed.

Lemma wait_loop_gives_up n : forall attempt c,
  rounds_left timeout max_retries c = n ->
  time_spent c <= timeout ->
  load_retries c <= max_retries ->
  (exists t,
     wait_loop n server attempt c = Some (GaveUp, t)
     /\ requests t = n
     /\ signals t = replicate (max_retries - load_retries c) "show_retry()"
                    ++ ["show_error()"]
     /\ loads t = [])
  /\ forall fuel, fuel < n -> wait_loop fuel server attempt c = None.
Proof.
  induction n as [|n IH]; intros attempt c Hleft Hspent Hretries;
    unfold rounds_left in Hleft; [lia|].
  destruct (running_one_request (server attempt)) as (Hreq & Hsig & Hloads).
  destruct (decide (time_spent c + 1 <= timeout)) as [Hin|Hout].
  - destruct (IH (S attempt) {| time_spent := time_spent c + 1;
                                load_retries := load_retries c |})
      as [(t & Hrun & Hreq' & Hsig' & Hloads') Hshort];
      [unfold rounds_left; simpl; lia | simpl; lia | simpl; lia |].
    simpl in Hsig'. split.
    + eexists. rewrite wait_loop_unanswered, (loop_body_in_period c Hin), Hrun.
      split; [done|].
      rewrite !requests_app, !signals_app, !loads_app, Hreq, Hsig, Hloads.
      rewrite Hreq', Hsig', Hloads'. done.
    + intros [|fuel] Hfuel; [done|].
      rewrite wait_loop_unanswered, (loop_body_in_period c Hin), Hshort by lia. done.
  - destruct (decide (load_retries c < max_retries)) as [Hmore|Hcap].
    + assert (Hsucc : max_retries - load_retries c
                      = S (max_retries - (load_retries c + 1))) by lia.
      destruct (IH (S attempt) {| time_spent := 0;
                                  load_retries := load_retries c + 1 |})
        as [(t & Hrun & Hreq' & Hsig' & Hloads') Hshort];
        [unfold rounds_left; simpl | simpl; lia | simpl; lia |].
      { rewrite Hsucc in Hleft. simpl in Hleft. lia. }
      simpl in Hsig'. split.
      * eexists.
        rewrite wait_loop_unanswered, (loop_body_retry c ltac:(lia) Hmore), Hrun.
        split; [done|].
        rewrite !requests_app, !signals_app, !loads_app, Hreq, Hsig, Hloads.
        rewrite Hreq', Hsig', Hloads', Hsucc. done.
      * intros [|fuel] Hfuel; [done|].
        rewrite wait_loop_unanswered, (loop_body_retry c ltac:(lia) Hmore),
          Hshort by lia.
        done.
    + assert (Hzero : max_retries - load_retries c = 0) by lia.
      rewrite Hzero in *. simpl in Hleft. split.
      * eexists.
        replace (S n) with 1 by lia.
        rewrite wait_loop_unanswered, (loop_body_error c ltac:(lia) ltac:(lia)).
        split; [done|].
        rewrite !requests_app, !signals_app, !loads_app, Hreq, Hsig, Hloads.
        split; [reflexivity | done].
      * intros fuel Hfuel. replace fuel with 0 by lia. done.
Qed.

End PollerAnyBudget.

(** X20: with any timeout and any retry cap in the place of 20 and 3, a
    server that never answers is checked [(max_retries + 1) * (timeout + 1)]
    times, no fewer and no more: the loop is still running before that many
    rounds, and with them it has given up after [max_retries] retry signals
    followed by the error signal, without navigating. *)
Theorem unanswered_budget_is_retries_times_periods
    (home_url : string) (timeout max_retries : nat) (server : nat -> probe) :
  (forall n, (Application.running home_url (server n)).1 = false) ->
  (exists t,
     Application.wait_loop home_url timeout max_retries
       (S max_retries * S timeout) server 0 start = Some (GaveUp, t)
     /\ requests t = S max_retries * S timeout
     /\ signals t = replicate max_retries "show_retry()" ++ ["show_error()"]
     /\ loads t = [])
  /\ forall fuel, fuel < S max_retries * S timeout ->
       Application.wait_loop home_url timeout max_retries fuel server 0 start = None.
Proof.
  intros Hsilent.
  destruct (wait_loop_gives_up home_url timeout max_retries server Hsilent
              (S max_retries * S timeout) 0 start)
    as [(t & Hrun & Hreq & Hsig & Hloads) Hshort].
  { unfold rounds_left, start. simpl. lia. }
  { simpl. lia. }
  { simpl. lia. }
  simpl in Hsig. rewrite Nat.sub_0_r in Hsig.
  split; [|exact Hshort]. exists t. done.
Qed.

Lemma unanswered_budget_is_retries_times_periods_witness :
  (forall n, (Application.running KOLIBRI_ROOT_URL (silent n)).1 = false)
  /\ exists t,
       Application.wait_loop KOLIBRI_ROOT_URL 1 2 6 silent 0 start = Some (GaveUp, t)
       /\ requests t = 6.
Proof.
  assert (H1 : forall n, (Application.running KOLIBRI_ROOT_URL (silent n)).1 = false)
    by (intros n; reflexivity).
  split; [exact H1|].
  destruct (unanswered_budget_is_retries_times_periods KOLIBRI_ROOT_URL 1 2 silent H1)
    as [(t & Hrun & Hreq & _) _].
  exists t. split; [exact Hrun | exact Hreq].
Defined.

(** ** Module paths, and the first page after the loading screen *)

Section ModulePaths.

Implicit Types (s t : string).

Lemma length_append s t :
  String.length (s +:+ t) = String.length s + String.length t.
Proof. induction s as [|c s IH]; [done|]. rewrite append_cons. simpl. by rewrite IH. Qed.

Lemma drop_append_length s t : PyStr.drop (String.length s) (s +:+ t) = t.
Proof. induction s as [|c s IH]; [by destruct t|]. by rewrite append_cons. Qed.

Lemma take_append_length s t : PyStr.take (String.length s) (s +:+ t) = s.
Proof.
  induction s as [|c s IH]; [by destruct t|]. rewrite append_cons. simpl. by rewrite IH.
Qed.

Lemma drop_plus n m s : PyStr.drop (n + m) s = PyStr.drop m (PyStr.drop n s).
Proof.
  revert s. induction n as [|n IH]; intros s; simpl.
  - by destruct s, m.
  - destruct s as [|c s]; [by destruct m|]. apply IH.
Qed.

(** X21: for a directory [std_lib + sub] of the walk that does not end in a
    slash and a file [name.py] in it, the module path is the path of the
    file below the standard library, without its extension and with a dot
    for each slash. *)
Theorem module_path_is_dotted_relative_path (std_lib sub name : string) :
  PyStr.startswith (name +:+ ".py") "/" = false ->
  std_lib +:+ sub <> "" ->
  PyStr.endswith (std_lib +:+ sub) "/" = false ->
  StdlibTool.module_path std_lib (std_lib +:+ sub) (name +:+ ".py")
  = PyStr.replace "/" "." (PyStr.drop 1 (sub +:+ "/" +:+ name)).
Proof.
  intros Hname Htop Hslash. unfold StdlibTool.module_path, OsPath.join.
  rewrite Hname, Hslash, orb_false_r.
  destruct (String.eqb_spec (std_lib +:+ sub) "") as [Hempty|_]; [done|].
  f_equal. unfold PyStr.slice_to_minus.
  set (below := sub +:+ "/" +:+ name).
  assert (Hpath : (std_lib +:+ sub) +:+ "/" +:+ name +:+ ".py"
                  = std_lib +:+ (below +:+ ".py")).
  { unfold below. by rewrite !append_assoc. }
  rewrite Hpath, !length_append, drop_plus, drop_append_length.
  assert (Hbelow : String.length below = S (String.length (PyStr.drop 1 below))).
  { unfold below. destruct sub as [|c sub]; [done|].
    rewrite append_cons. simpl. by destruct (sub +:+ "/" +:+ name). }
  destruct below as [|c below']; [done|]. rewrite append_cons. simpl.
  replace (String.length std_lib + S (String.length below' + 3) - 3
           - (String.length std_lib + 1))
    with (String.length below') by lia.
  replace (PyStr.drop 0 below') with below' by by destruct below'.
  replace (PyStr.drop 0 (below' +:+ ".py")) with (below' +:+ ".py")
    by by destruct (below' +:+ ".py").
  apply take_append_length.
Qed.

Lemma module_path_is_dotted_relative_path_witness :
  PyStr.startswith ("decoder" +:+ ".py") "/" = false
  /\ "/usr/lib/python3.6" +:+ "/json" <> ""
  /\ PyStr.endswith ("/usr/lib/python3.6" +:+ "/json") "/" = false
  /\ StdlibTool.module_path "/usr/lib/python3.6" ("/usr/lib/python3.6" +:+ "/json")
       ("decoder" +:+ ".py")
     = "json.decoder".
Proof.
  assert (H1 : PyStr.startswith ("decoder" +:+ ".py") "/" = false) by reflexivity.
  assert (H2 : "/usr/lib/python3.6" +:+ "/json" <> "") by discriminate.
  assert (H3 : PyStr.endswith ("/usr/lib/python3.6" +:+ "/json") "/" = false)
    by reflexivity.
  split; [exact H1|]. split; [exact H2|]. split; [exact H3|].
  apply (module_path_is_dotted_relative_path "/usr/lib/python3.6" "/json" "decoder"
           H1 H2 H3).
Defined.

End ModulePaths.

Section FirstPage.

(** X22: from [setUp] to the first page: when the poller finds the server
    running, the one URL it navigates to is not the loader URL, so the
    page load that follows sets [kolibri_loaded] and clears the history of
    the loading screen. *)
Theorem first_navigation_clears_loading_screen
    (abspath : string -> string) (path_exists : string -> bool)
    (locale saved_state : gmap string string) (a : app) (t0 : trace)
    (server : nat -> probe) (fuel : nat) (t : trace) :
  Application.setUp abspath path_exists locale = inr (a, t0) ->
  Application.wait_for_server fuel server saved_state = Some (ServerRunning, t) ->
  loads t = [landing saved_state]
  /\ landing saved_state <> loader_url a
  /\ (Application.page_loaded a (landing saved_state)).2 = [ClearHistory]
  /\ kolibri_loaded (Application.page_loaded a (landing saved_state)).1 = true.
Proof.
  intros Hsetup Hrun.
  assert (Hloads : loads t = [landing saved_state]).
  { revert Hrun. unfold Application.wait_for_server, Application.wait_for_server_with.
    destruct (Application.wait_loop _ _ _ fuel server 0 _) as [[[|] t1]|] eqn:Hloop;
      [|done..].
    intros [= <-].
    destruct (wait_loop_no_navigation _ _ _ _ _ _ Hloop) as [Hl _].
    rewrite loads_app, Hl. unfold Application.navigate, landing.
    destruct (saved_state !! "URL") as [u|]; [|done].
    by destruct (PyStr.startswith u KOLIBRI_ROOT_URL). }
  assert (Hne : landing saved_state <> loader_url a).
  { pose proof (landing_rooted saved_state) as Hroot.
    unfold Application.setUp in Hsetup.
    destruct (locale !! "language"); [|done]. injection Hsetup as <- _. simpl.
    intros Heq. rewrite Heq in Hroot. discriminate Hroot. }
  split; [done|]. split; [done|].
  unfold Application.setUp in Hsetup.
  destruct (locale !! "language"); [|done]. injection Hsetup as <- _.
  unfold Application.page_loaded. simpl in *.
  destruct (String.eqb_spec (landing saved_state)
              ("file://" +:+ Application.resolve_loader_page abspath path_exists s));
    [contradiction | done].
Qed.

Lemma first_navigation_clears_loading_screen_witness :
  let locale : gmap string string := {["language" := "en_US"]} in
  let a := {| loader_url := "file:///app/assets/_load-en_US.html";
              kolibri_loaded := false; view := 0; windows := [0];
              next_window := 1 |} in
  let t := [Urlopen KOLIBRI_ROOT_URL; GetViewState; GetViewState;
            Log DEBUG "Persisted View State"; LoadUrl KOLIBRI_ROOT_URL] in
  Application.setUp app_abspath (assets_for ["en_US"]) locale = inr (a, [ShowWindow 0])
  /\ Application.wait_for_server 1 (answers_at 0) ∅ = Some (ServerRunning, t)
  /\ (Application.page_loaded a (landing ∅)).2 = [ClearHistory].
Proof.
  intros locale a t.
  assert (H1 : Application.setUp app_abspath (assets_for ["en_US"]) locale
               = inr (a, [ShowWindow 0])) by (vm_compute; reflexivity).
  assert (H2 : Application.wait_for_server 1 (answers_at 0) ∅ = Some (ServerRunning, t))
    by (vm_compute; reflexivity).
  split; [exact H1|]. split; [exact H2|].
  apply (first_navigation_clears_loading_screen _ _ _ ∅ _ _ _ _ _ H1 H2).
Defined.

End FirstPage.
